(** * Modbus RTU slave responder (Modbus-tools/mbs.c)

    A shallow embedding of the request/response cycle of [mbs.c] and the
    properties of its dispatcher: address filtering, function dispatch,
    bounds checking against the register map, and the choice between a
    normal and an exception reply.

    The register map is the global array [reg_map]; it is threaded through
    the handlers explicitly.  Everything the program does to the outside
    (accesses to the register map, log lines, calls of the reply functions)
    is collected in a trace of [effect]s, so that statements such as
    "no reply is sent" or "no element is accessed" can be written down. *)

From Stdlib Require Import ZArith Lia List String.
From Stdlib.Strings Require Import Byte Ascii.
From stdpp Require Import base option list.
Import ListNotations.
Local Open Scope Z_scope.

(** ** Machine integers *)

(** A [uint8_t] read as an [int]. *)
Definition uint8 (b : byte) : Z := Z.of_N (Byte.to_N b).

(** Conversion of an [int] to [uint16_t]: the low sixteen bits. *)
Definition to_uint16 (x : Z) : Z := Z.land x 0xFFFF.

(** [(int)hi << 8 | (int)lo]. *)
Definition be16 (hi lo : byte) : Z := Z.lor (Z.shiftl (uint8 hi) 8) (uint8 lo).

(** ** The library the program is linked against *)

Module Libmodbus.

(** The program includes [modbus/modbus.h] and is linked with [-lmodbus];
    neither the header nor the library is part of the repository.  What
    the program uses of them is modelled here from the specification. *)

(** Modelled from the spec: the exception code Illegal Function of
    [modbus/modbus.h]; section 6 fixes its wire value. *)
Definition MODBUS_EXCEPTION_ILLEGAL_FUNCTION : Z := 0x01.

(** Modelled from the spec: the exception code Illegal Data Address of
    [modbus/modbus.h]; section 6 fixes its wire value. *)
Definition MODBUS_EXCEPTION_ILLEGAL_DATA_ADDRESS : Z := 0x02.

(** Modelled from the spec: the exception code Slave or Server Failure of
    [modbus/modbus.h]; section 6 fixes its wire value. *)
Definition MODBUS_EXCEPTION_SLAVE_OR_SERVER_FAILURE : Z := 0x04.

(** Modelled from the spec: the type [modbus_mapping_t] of
    [modbus/modbus.h], the response data structure handed to
    [modbus_reply].  It is kept as far as [mbs.c] uses it: the four table
    sizes given to [modbus_mapping_new] and [tab_registers], the only
    table the program touches. *)
Record modbus_mapping_t := {
  nb_bits : Z;
  nb_input_bits : Z;
  nb_registers : Z;
  nb_input_registers : Z;
  tab_registers : list Z
}.

(** Modelled from the spec: [modbus_mapping_new] of the Modbus library.
    The response is "built fresh per request" (section 3): a new
    structure has the sizes asked for and, as the library documents, a
    register table whose values are all zero.  [ok] says whether the
    allocation succeeds; a failed allocation is the [NULL] result. *)
Definition modbus_mapping_new (ok : bool)
    (bits input_bits registers input_registers : Z) : option modbus_mapping_t :=
  if ok then
    Some {| nb_bits := bits;
            nb_input_bits := input_bits;
            nb_registers := registers;
            nb_input_registers := input_registers;
            tab_registers := replicate (Z.to_nat registers) 0 |}
  else None.

(** [mb_mapping->tab_registers[i] = v].  Outside the table the store is
    undefined in C; the model has no result there. *)
Definition set_tab_register (m : modbus_mapping_t) (i v : Z) : option modbus_mapping_t :=
  if (0 <=? i) && (Z.to_nat i <? length (tab_registers m))%nat then
    Some {| nb_bits := nb_bits m;
            nb_input_bits := nb_input_bits m;
            nb_registers := nb_registers m;
            nb_input_registers := nb_input_registers m;
            tab_registers := <[Z.to_nat i := v]> (tab_registers m) |}
  else None.

(** Modelled from the spec: the replies of section 3, a normal reply to
    a read (with its register payload) or to a write (with the register
    and value written), or an exception reply. *)
Inductive response :=
| ReadReply (slave function : Z) (payload : list Z)
| WriteReply (slave function reg val : Z)
| ExceptionReply (slave function code : Z).

(** The fields of a request frame, at the offsets the program itself
    uses: the address byte sits at [header_length - 1]. *)
Definition frame_byte (header_length : Z) (query : list byte) (k : nat) : option byte :=
  if header_length - 1 <? 0 then None
  else query !! (Z.to_nat (header_length - 1) + k)%nat.

(** Modelled from the spec: the payload of a read (section 4.3), the
    registers the request names, in the order requested, as they stand in
    the response structure.  The specification does not say what is sent
    for a request that reaches past the last register; here the payload
    ends with the table. *)
Definition requested_registers (m : modbus_mapping_t) (address count : Z) : list Z :=
  take (Z.to_nat count) (drop (Z.to_nat address) (tab_registers m)).

(** Modelled from the spec: the response builder, which is the Modbus
    library's [modbus_reply].  Section 4.2 (5) and section 4.3: a normal
    reply echoes slave address and function code and attaches the
    register payload, every register requested in the order requested; a
    write is answered by its own address and value (scenario A).  As in
    section 4.2 (2), both read function codes are served from the single
    register table.  [main] calls it for the function codes 0x03, 0x04
    and 0x06 only. *)
Definition modbus_reply (header_length : Z) (query : list byte)
    (m : modbus_mapping_t) : option response :=
  slave ← frame_byte header_length query 0;
  function ← frame_byte header_length query 1;
  a_hi ← frame_byte header_length query 2;
  a_lo ← frame_byte header_length query 3;
  d_hi ← frame_byte header_length query 4;
  d_lo ← frame_byte header_length query 5;
  match uint8 function with
  | 3 | 4 =>
      Some (ReadReply (uint8 slave) (uint8 function)
              (requested_registers m (be16 a_hi a_lo) (be16 d_hi d_lo)))
  | 6 =>
      Some (WriteReply (uint8 slave) (uint8 function)
              (be16 a_hi a_lo) (be16 d_hi d_lo))
  | _ => None
  end.

(** Modelled from the spec: [modbus_reply_exception] of the Modbus
    library.  Section 4.2 (5): an exception reply is the slave address,
    the function code with its high bit set and the exception code; it
    carries no register payload. *)
Definition modbus_reply_exception (header_length : Z) (query : list byte)
    (exception_code : Z) : option response :=
  slave ← frame_byte header_length query 0;
  function ← frame_byte header_length query 1;
  Some (ExceptionReply (uint8 slave) (Z.lor (uint8 function) 0x80) exception_code).

End Libmodbus.

(** ** The slave program *)

Module Mbs.
Import Libmodbus.

(** Register map settings. *)
Definition MAX_REG : Z := 32.

(** Serial port settings. *)
Definition SERIAL_PORT : string := "/dev/ttyAMA0".
Definition RTS_DELAY : Z := 10.

(** Flag to indicate exit from main loop; nothing in the program
    changes it. *)
Definition cont : Z := 1.

(** Modbus request structure. *)
Record modbus_request_t := {
  slave_addr : byte;
  fc : byte;
  reg_addr_hi : byte;
  reg_addr_lo : byte;
  reg_val_hi : byte;
  reg_val_lo : byte
}.

(** The lines written to the system log. *)
Inductive log_message :=
| LogContextFailed
| LogConnectionFailed
| LogRtsModeFailed
| LogRtsDelayFailed
| LogReceiveFailed (own_addr : Z)
| LogMappingFailed (own_addr : Z)
| LogInvalidOperation (operation : Z)
| LogReplyFailed (own_addr : Z)
| LogExceptionReplyFailed (own_addr : Z).

(** What the program does to the register map and to the outside. *)
Inductive effect :=
| RegRead (reg_addr : Z)
| RegWrite (reg_addr reg_val : Z)
| Usage
| Syslog (m : log_message)
| ModbusReply (query : list byte) (mb_mapping : modbus_mapping_t)
| ModbusReplyException (query : list byte) (exception_code : Z).

(** *** Computations over the register map

    A computation takes the register map and gives a result, the new
    register map and the effects it had, or nothing where C leaves the
    behaviour undefined (an access outside an array). *)
Definition M (A : Type) : Type := list Z → option (A * list Z * list effect).

Definition ret {A} (a : A) : M A := λ rm, Some (a, rm, []).

Definition bind {A B} (m : M A) (k : A → M B) : M B := λ rm,
  match m rm with
  | None => None
  | Some (a, rm1, e1) =>
      match k a rm1 with
      | None => None
      | Some (b, rm2, e2) => Some (b, rm2, e1 ++ e2)
      end
  end.

Definition emit (e : effect) : M unit := λ rm, Some (tt, rm, [e]).

Definition lift {A} (o : option A) : M A := λ rm,
  match o with
  | Some a => Some (a, rm, [])
  | None => None
  end.

Declare Scope mbs_scope.
Delimit Scope mbs_scope with mbs.
Notation "x <- m ;;; k" := (bind m (λ x, k))
  (at level 20, m at level 99, k at level 200, only parsing) : mbs_scope.
Notation "' p <- m ;;; k" := (bind m (λ x, match x with p => k end))
  (at level 20, p pattern, m at level 99, k at level 200, only parsing) : mbs_scope.
Notation "m ;;; k" := (bind m (λ _, k))
  (at level 100, k at level 200, only parsing, right associativity) : mbs_scope.
Local Open Scope mbs_scope.

(** [*reg_val = reg_map[reg_addr]; return 0;] gives the pair of the
    return value and the value stored through the pointer. *)
Definition read_reg (reg_addr : Z) : M (Z * Z) := λ reg_map,
  if reg_addr <? 0 then None
  else match reg_map !! Z.to_nat reg_addr with
       | Some v => Some ((0, v), reg_map, [RegRead reg_addr])
       | None => None
       end.

(** [reg_map[reg_addr] = reg_val; return 0;] *)
Definition write_reg (reg_addr reg_val : Z) : M Z := λ reg_map,
  if (0 <=? reg_addr) && (Z.to_nat reg_addr <? length reg_map)%nat then
    Some (0, <[Z.to_nat reg_addr := reg_val]> reg_map, [RegWrite reg_addr reg_val])
  else None.

(** The request structure laid over the frame at [query[header_length-1]]. *)
Definition request_at (header_length : Z) (query : list byte) : option modbus_request_t :=
  b0 ← frame_byte header_length query 0;
  b1 ← frame_byte header_length query 1;
  b2 ← frame_byte header_length query 2;
  b3 ← frame_byte header_length query 3;
  b4 ← frame_byte header_length query 4;
  b5 ← frame_byte header_length query 5;
  Some {| slave_addr := b0; fc := b1;
          reg_addr_hi := b2; reg_addr_lo := b3;
          reg_val_hi := b4; reg_val_lo := b5 |}.

(** The decoded fields. *)
Definition operation_of (r : modbus_request_t) : Z := uint8 (fc r).
Definition reg_addr_of (r : modbus_request_t) : Z := be16 (reg_addr_hi r) (reg_addr_lo r).
Definition reg_val_of (r : modbus_request_t) : Z :=
  to_uint16 (be16 (reg_val_hi r) (reg_val_lo r)).

(** What one turn of the main loop meets outside the program: the frame
    [modbus_receive] delivers (nothing when it returns -1), whether
    [modbus_mapping_new] can allocate, and the return value of the
    reply function. *)
Record event := {
  received : option (list byte);
  mapping_alloc : bool;
  reply_rc : Z
}.

(** How one turn of the loop ends: with the next turn, or with a
    [return] from [main]. *)
Inductive status :=
| Continue
| Return (rc : Z).

(** The [switch (operation)]: the exception code and the response
    structure after it. *)
Definition perform (operation reg_addr reg_val : Z) (mb_mapping : modbus_mapping_t)
    : M (Z * modbus_mapping_t) :=
  match operation with
  | 3 | 4 =>
      if reg_addr <? MAX_REG then
        ('(rc, reg_val) <- read_reg reg_addr ;;;
         if negb (rc =? 0) then
           ret (MODBUS_EXCEPTION_SLAVE_OR_SERVER_FAILURE, mb_mapping)
         else
           (m <- lift (set_tab_register mb_mapping reg_addr reg_val) ;;;
            ret (0, m)))
      else
        ret (MODBUS_EXCEPTION_ILLEGAL_DATA_ADDRESS, mb_mapping)
  | 6 =>
      if reg_addr <? MAX_REG then
        (rc <- write_reg reg_addr reg_val ;;;
         if negb (rc =? 0) then
           ret (MODBUS_EXCEPTION_SLAVE_OR_SERVER_FAILURE, mb_mapping)
         else
           ret (0, mb_mapping))
      else
        ret (MODBUS_EXCEPTION_ILLEGAL_DATA_ADDRESS, mb_mapping)
  | _ =>
      emit (Syslog (LogInvalidOperation operation)) ;;;
      ret (MODBUS_EXCEPTION_ILLEGAL_FUNCTION, mb_mapping)
  end.

(** "Send reply to client". *)
Definition send_reply (own_addr : Z) (ev : event) (query : list byte)
    (exception_code : Z) (mb_mapping : modbus_mapping_t) : M unit :=
  if exception_code =? 0 then
    (emit (ModbusReply query mb_mapping) ;;;
     if reply_rc ev =? -1 then emit (Syslog (LogReplyFailed own_addr)) else ret tt)
  else
    (emit (ModbusReplyException query exception_code) ;;;
     if reply_rc ev =? -1 then emit (Syslog (LogExceptionReplyFailed own_addr)) else ret tt).

(** The [else] branch of the main loop: a frame has been received. *)
Definition handle_request (own_addr header_length : Z) (ev : event)
    (query : list byte) : M status :=
  modbus_request <- lift (request_at header_length query) ;;;
  let slave_addr := uint8 (slave_addr modbus_request) in
  let operation := operation_of modbus_request in
  let reg_addr := reg_addr_of modbus_request in
  let reg_val := reg_val_of modbus_request in
  if negb (slave_addr =? own_addr) then ret Continue
  else
    match modbus_mapping_new (mapping_alloc ev) 0 0 MAX_REG 0 with
    | None =>
        (emit (Syslog (LogMappingFailed own_addr)) ;;;
         ret (Return (-1)))
    | Some mb_mapping =>
        ('(exception_code, mb_mapping) <- perform operation reg_addr reg_val mb_mapping ;;;
         send_reply own_addr ev query exception_code mb_mapping ;;;
         ret Continue)
    end.

(** One turn of [while (cont)]. *)
Definition loop_turn (own_addr header_length : Z) (ev : event) : M status :=
  match received ev with
  | None => (emit (Syslog (LogReceiveFailed own_addr)) ;;; ret Continue)
  | Some query => handle_request own_addr header_length ev query
  end.

(** The main loop over the events it meets; [rc] is the variable of
    [main] returned after the loop.  When the events are used up the
    program is waiting in [modbus_receive]. *)
Fixpoint main_loop (own_addr header_length rc : Z) (events : list event) : M status :=
  match events with
  | [] => ret Continue
  | ev :: rest =>
      if cont =? 0 then ret (Return rc)
      else
        (s <- loop_turn own_addr header_length ev ;;;
         match s with
         | Continue => main_loop own_addr header_length rc rest
         | Return r => ret (Return r)
         end)
  end.

(** What [main] meets before the loop: the arguments and the results of
    the calls that set up the port. *)
Record startup := {
  argc : Z;
  arg_baudrate : Z;
  arg_slave_addr : Z;
  new_rtu_ok : bool;
  header_length_of_ctx : Z;
  connect_rc : Z;
  set_rts_rc : Z;
  set_rts_delay_rc : Z
}.

(** [strstr(SERIAL_PORT, "USB") == NULL] *)
Definition not_usb : bool :=
  match index 0 "USB" SERIAL_PORT with
  | None => true
  | Some _ => false
  end.

(** "Initialize communication port": the return value of [main] when
    the set-up fails, the log line written then. *)
Definition init_port (s : startup) : M status :=
  if negb (new_rtu_ok s) then
    (emit (Syslog LogContextFailed) ;;; ret (Return (-1)))
  else if connect_rc s =? -1 then
    (emit (Syslog LogConnectionFailed) ;;; ret (Return (-1)))
  else if not_usb && (set_rts_rc s =? -1) then
    (emit (Syslog LogRtsModeFailed) ;;; ret (Return (-1)))
  else if not_usb && (0 <? RTS_DELAY) && (set_rts_delay_rc s =? -1) then
    (emit (Syslog LogRtsDelayFailed) ;;; ret (Return (-1)))
  else ret Continue.

(** [main]: the usage text for too few arguments, the set-up of the port,
    then the main loop. *)
Definition main (s : startup) (events : list event) : M status :=
  let rc := 0 in
  if argc s <? 3 then (emit Usage ;;; ret (Return 0))
  else
    let own_addr := arg_slave_addr s in
    (st <- init_port s ;;;
     match st with
     | Return r => ret (Return r)
     | Continue => main_loop own_addr (header_length_of_ctx s) rc events
     end).

(** The register map of a freshly started program. *)
Definition reg_map0 : list Z := replicate (Z.to_nat MAX_REG) 0.

End Mbs.

(** ** The command line tools

    [relconf.c], [thconf.c] and [mbm.c] send one request (or poll with
    one) and print what comes back.  What a tool prints is collected in
    a list of outputs; what it meets outside (the results of the calls
    that set up the port and of the request) is given to it. *)

Module Tool.

(** The results of the calls that set up the port. *)
Record port := {
  new_rtu_ok : bool;
  connect_rc : Z;
  set_rts_rc : Z;
  set_rts_delay_rc : Z
}.

(** The four messages of the set-up. *)
Inductive port_error :=
| ContextFailed
| ConnectionFailed
| RtsModeFailed
| RtsDelayFailed.

(** "Initialize communication port", the same text in the three tools:
    the first call that fails, if one does. *)
Definition init_port (serial_port : string) (rts_delay : Z) (p : port) : option port_error :=
  if negb (new_rtu_ok p) then Some ContextFailed
  else if connect_rc p =? -1 then Some ConnectionFailed
  else
    match index 0 "USB" serial_port with
    | None =>
        if set_rts_rc p =? -1 then Some RtsModeFailed
        else if (0 <? rts_delay) && (set_rts_delay_rc p =? -1) then Some RtsDelayFailed
        else None
    | Some _ => None
    end.

(** Conversion of an [int] to [uint8_t], as in the initializer of a
    [uint8_t] array: the value modulo 256. *)
Definition byte_of_int (x : Z) : byte :=
  default x00 (Byte.of_N (Z.to_N (x mod 256))).

(** What [modbus_receive_confirmation] leaves: its return value and the
    response buffer. *)
Record confirmation := {
  rsp_length : Z;
  rsp : list byte
}.

End Tool.

(** *** Relay configuration tool ([relconf.c]) *)

Module Relconf.
Import Tool.

Definition SERIAL_PORT : string := "/dev/ttyAMA0".
Definition RTS_DELAY : Z := 10.
Definition REQ_FRAME_LEN : Z := 6.
Definition DATA_OFFSET_RD : Z := 3.
Definition DATA_OFFSET_WR : Z := 4.

(** Modelled from the spec: the function code Read Holding Registers of
    [modbus/modbus.h]; section 4.2 and the message description at the
    head of [relconf.c] give 0x03. *)
Definition MODBUS_FC_READ_HOLDING_REGISTERS : Z := 0x03.

(** Modelled from the spec: the function code Write Single Register of
    [modbus/modbus.h]; section 4.2 and the message description at the
    head of [relconf.c] give 0x06. *)
Definition MODBUS_FC_WRITE_SINGLE_REGISTER : Z := 0x06.

(** The command line: [argc], [atoi(argv[1])] and, when there is a
    second argument, [atoi(argv[2])]. *)
Record args := {
  argc : Z;
  arg_reg_addr : Z;
  arg_reg_val : Z
}.

(** [reg_val] after the arguments are parsed: 1 unless given. *)
Definition reg_val (a : args) : Z :=
  if 2 <? argc a then arg_reg_val a else 1.

(** [fc] after the arguments are parsed. *)
Definition fc (a : args) : Z :=
  if 2 <? argc a then MODBUS_FC_WRITE_SINGLE_REGISTER
  else MODBUS_FC_READ_HOLDING_REGISTERS.

(** [uint8_t raw_req[] = { 0xFF, fc, 0x00, reg_addr, reg_val>>8, reg_val }];
    [>>] on an [int] is the arithmetic shift. *)
Definition raw_req (a : args) : list byte :=
  [byte_of_int 0xFF; byte_of_int (fc a); byte_of_int 0x00;
   byte_of_int (arg_reg_addr a);
   byte_of_int (Z.shiftr (reg_val a) 8); byte_of_int (reg_val a)].

(** What the tool prints and sends. *)
Inductive output :=
| Usage
| PortError (e : port_error)
| RawRequest (req : list byte) (len : Z)
| RegLine (reg_addr reg_val : Z)
| RequestError.

(** [reg_val = rsp[o]<<8; reg_val |= rsp[o+1];] *)
Definition rsp_value (rsp : list byte) (o : Z) : option Z :=
  hi ← rsp !! Z.to_nat o;
  lo ← rsp !! Z.to_nat (o + 1);
  Some (be16 hi lo).

(** [main]: the return value and the outputs, in order. *)
Definition main (a : args) (p : port) (c : confirmation) : option (Z * list output) :=
  if argc a <? 2 then Some (0, [Usage])
  else
    match init_port SERIAL_PORT RTS_DELAY p with
    | Some e => Some (-1, [PortError e])
    | None =>
        v ← rsp_value (rsp c)
              (if fc a =? MODBUS_FC_READ_HOLDING_REGISTERS
               then DATA_OFFSET_RD else DATA_OFFSET_WR);
        Some (0, [RawRequest (raw_req a) REQ_FRAME_LEN;
                  if negb (rsp_length c =? -1) then RegLine (arg_reg_addr a) v
                  else RequestError])
    end.

End Relconf.

(** *** T/H sensor configuration tool ([thconf.c]) *)

Module Thconf.
Import Tool.

Definition SERIAL_PORT : string := "/dev/ttyAMA0".
Definition RTS_DELAY : Z := 10.
Definition REQ_FRAME_LEN : Z := 9.
Definition RSP_FRAME_LEN : Z := 6.

(** Modelled from the spec: the function code Write Single Register of
    [modbus/modbus.h]; section 4.2 and the message description at the
    head of [thconf.c] give 0x06. *)
Definition MODBUS_FC_WRITE_SINGLE_REGISTER : Z := 0x06.

Definition check_baudrate (baudrate : Z) : Z :=
  match baudrate with
  | 1200 => 3
  | 2400 => 4
  | 4800 => 5
  | 9600 => 6
  | 19200 => 7
  | _ => 0
  end.

(** The command line: [argc] and the four arguments through [atoi]. *)
Record args := {
  argc : Z;
  baudrate : Z;
  slave_addr : Z;
  new_baudrate : Z;
  new_slave_addr : Z
}.

(** [uint8_t raw_req[] = { slave_addr, MODBUS_FC_WRITE_SINGLE_REGISTER,
    0x00, 0x00, 0x00, 0x01, 0x02, new_slave_addr, br_code }] *)
Definition raw_req (a : args) (br_code : Z) : list byte :=
  [byte_of_int (slave_addr a); byte_of_int MODBUS_FC_WRITE_SINGLE_REGISTER;
   byte_of_int 0x00; byte_of_int 0x00; byte_of_int 0x00; byte_of_int 0x01;
   byte_of_int 0x02; byte_of_int (new_slave_addr a); byte_of_int br_code].

(** What the tool prints and sends. *)
Inductive output :=
| Usage
| InvalidBaudrate (baudrate : Z)
| InvalidNewBaudrate (baudrate : Z)
| InvalidSlaveAddress (slave_addr : Z)
| InvalidNewSlaveAddress (slave_addr : Z)
| PortError (e : port_error)
| RawRequest (req : list byte) (len : Z)
| Changed
| NewBaudrate (baudrate : Z)
| NewSlaveAddress (slave_addr : Z)
| NotChanged.

(** [memcmp(a, b, n) == 0]; there is no result when one of the two has
    fewer than [n] bytes. *)
Definition memcmp_eq (a b : list byte) (n : nat) : option bool :=
  if (n <=? length a)%nat && (n <=? length b)%nat then
    Some (forallb (λ x, Byte.eqb x.1 x.2) (zip (take n a) (take n b)))
  else None.

(** [main]: the return value and the outputs, in order. *)
Definition main (a : args) (p : port) (c : confirmation) : option (Z * list output) :=
  if argc a <? 5 then Some (0, [Usage])
  else if check_baudrate (baudrate a) =? 0 then
    Some (-1, [InvalidBaudrate (baudrate a)])
  else
    let br_code := check_baudrate (new_baudrate a) in
    if br_code =? 0 then Some (-1, [InvalidNewBaudrate (new_baudrate a)])
    else if (slave_addr a <? 1) || (247 <? slave_addr a) then
      Some (-1, [InvalidSlaveAddress (slave_addr a)])
    else if (new_slave_addr a <? 1) || (247 <? new_slave_addr a) then
      Some (-1, [InvalidNewSlaveAddress (new_slave_addr a)])
    else
      match init_port SERIAL_PORT RTS_DELAY p with
      | Some e => Some (-1, [PortError e])
      | None =>
          same ← memcmp_eq (raw_req a br_code) (rsp c) (Z.to_nat RSP_FRAME_LEN);
          Some (0, RawRequest (raw_req a br_code) REQ_FRAME_LEN ::
                   if same : bool then
                     Changed ::
                       (if negb (baudrate a =? new_baudrate a)
                        then [NewBaudrate (new_baudrate a)] else [])
                       ++ (if negb (slave_addr a =? new_slave_addr a)
                           then [NewSlaveAddress (new_slave_addr a)] else [])
                   else [NotChanged])
      end.

End Thconf.

(** *** Modbus master tool ([mbm.c]) *)

Module Mbm.
Import Tool.

Definition SERIAL_PORT : string := "/dev/ttyAMA0".
Definition RTS_DELAY : Z := 10.

(** Register map settings. *)
Definition MAX_REG : Z := 32.

(** The command line: [argc], the mode character [argv[1][0]], the three
    arguments that follow through [atoi], and the numbers that the
    arguments from [argv[5]] on stand for. *)
Record args := {
  argc : Z;
  mode : ascii;
  baudrate : Z;
  slave_addr : Z;
  start_addr : Z;
  rest : list Z
}.

(** The variables set while the arguments are parsed. *)
Record parsed := {
  num_reg : Z;
  poll_period : Z;
  reg_val : Z;
  tab_reg : list Z
}.

(** What the library calls of the main switch give: for each read, the
    return value and [tab_reg] after the call; for the write, the return
    value. *)
Record library := {
  reads : list (Z * list Z);
  write_rc : Z
}.

(** What the tool prints, and its sleeps. *)
Inductive output :=
| Usage
| InvalidMode (c : ascii)
| PortError (e : port_error)
| ReadHoldingError
| ReadInputError
| RegisterLine (i reg value : Z)
| WrittenLine (reg value : Z)
| WriteSingleError
| WriteMultipleError
| Sleep (usec : Z).

(** How the tool stands when the library results are used up: returned
    from [main], or still polling. *)
Inductive exit :=
| Exit (rc : Z)
| Polling.

(** [for (k=0; (k<MAX_REG) && (i<argc); k++, i++)
      tab_reg[k] = (uint16_t)strtol(argv[i], NULL, 0);]
    over the arguments that are left; gives [tab_reg] and [k]. *)
Fixpoint fill_tab (vals : list Z) (k : nat) (tab : list Z) : list Z * nat :=
  match vals with
  | [] => (tab, k)
  | v :: vs =>
      if (k <? Z.to_nat MAX_REG)%nat then
        fill_tab vs (S k) (<[k := to_uint16 v]> tab)
      else (tab, k)
  end.

(** "Parse input parameters", for a known mode; [num_reg] is 1,
    [poll_period] 0 and [tab_reg] zero where the mode does not set them.
    There is no result for an unknown mode. *)
Definition parse (a : args) : option (option parsed) :=
  let tab0 := replicate (Z.to_nat MAX_REG) 0 in
  match mode a with
  | "r"%char | "R"%char =>
      n ← rest a !! 0%nat;
      if 6 <? argc a then
        pp ← rest a !! 1%nat;
        Some (Some {| num_reg := n; poll_period := pp; reg_val := 0; tab_reg := tab0 |})
      else
        Some (Some {| num_reg := n; poll_period := 0; reg_val := 0; tab_reg := tab0 |})
  | "w"%char =>
      v ← rest a !! 0%nat;
      Some (Some {| num_reg := 1; poll_period := 0; reg_val := to_uint16 v;
                    tab_reg := tab0 |})
  | "W"%char =>
      let '(tab, k) := fill_tab (take (Z.to_nat (argc a - 5)) (rest a)) 0 tab0 in
      Some (Some {| num_reg := Z.of_nat k; poll_period := 0; reg_val := 0;
                    tab_reg := tab |})
  | _ => Some None
  end.

(** [if (num_reg > MAX_REG) num_reg = MAX_REG;] *)
Definition clamp (n : Z) : Z := if MAX_REG <? n then MAX_REG else n.

(** [for (i=0; i<num_reg; i++) printf(..., i, start_addr+i, tab_reg[i], ...)] *)
Definition register_lines (start n : Z) (tab : list Z) : option (list output) :=
  mapM (λ i, v ← tab !! i; Some (RegisterLine (Z.of_nat i) (start + Z.of_nat i) v))
       (seq 0 (Z.to_nat n)).

(** The argument of [usleep(poll_period*1000000)]: the product is formed
    in a 32-bit [int] and handed over as the unsigned 32-bit
    [useconds_t], so it is the low 32 bits of the product. *)
Definition usleep_arg (pp : Z) : Z := (pp * 1000000) mod 2 ^ 32.

(** The [do ... while (poll_period)] loop of the modes r and R. *)
Fixpoint poll (err : output) (start n pp : Z) (results : list (Z * list Z))
    : option (exit * list output) :=
  match results with
  | [] => Some (Polling, [])
  | (rc, tab) :: more =>
      if negb (rc =? n) then Some (Exit rc, [err])
      else
        lines ← register_lines start n tab;
        if pp =? 0 then Some (Exit rc, lines ++ [Sleep (usleep_arg pp)])
        else
          '(x, out) ← poll err start n pp more;
          Some (x, lines ++ Sleep (usleep_arg pp) :: out)
  end.

(** The main switch. *)
Definition operate (a : args) (v : parsed) (n : Z) (l : library) : option (exit * list output) :=
  match mode a with
  | "r"%char => poll ReadHoldingError (start_addr a) n (poll_period v) (reads l)
  | "R"%char => poll ReadInputError (start_addr a) n (poll_period v) (reads l)
  | "w"%char =>
      Some (Exit (write_rc l),
            [if negb (write_rc l =? 1) then WriteSingleError
             else WrittenLine (start_addr a) (reg_val v)])
  | "W"%char =>
      if negb (write_rc l =? n) then Some (Exit (write_rc l), [WriteMultipleError])
      else
        lines ← register_lines (start_addr a) n (tab_reg v);
        Some (Exit (write_rc l), lines)
  | _ => Some (Exit 0, [])
  end.

(** [main]: how it ends and the outputs, in order. *)
Definition main (a : args) (p : port) (l : library) : option (exit * list output) :=
  if argc a <? 6 then Some (Exit 0, [Usage])
  else
    v ← parse a;
    match v with
    | None => Some (Exit (-1), [InvalidMode (mode a)])
    | Some v =>
        let n := clamp (num_reg v) in
        match init_port SERIAL_PORT RTS_DELAY p with
        | Some e => Some (Exit (-1), [PortError e])
        | None => operate a v n l
        end
    end.

End Mbm.

(** ** Vocabulary of the statements *)

Import Libmodbus Mbs.

(** The response structure [modbus_mapping_new(0,0,MAX_REG,0)] gives. *)
Definition fresh_mapping : modbus_mapping_t :=
  {| nb_bits := 0; nb_input_bits := 0; nb_registers := MAX_REG;
     nb_input_registers := 0;
     tab_registers := replicate (Z.to_nat MAX_REG) 0 |}.

(** The response structure after the read path has copied [v] to [a]. *)
Definition read_mapping (a v : Z) : modbus_mapping_t :=
  {| nb_bits := 0; nb_input_bits := 0; nb_registers := MAX_REG;
     nb_input_registers := 0;
     tab_registers := <[Z.to_nat a := v]> (replicate (Z.to_nat MAX_REG) 0) |}.

(** The log line that follows a reply whose transmission failed. *)
Definition reply_failure_log (own_addr : Z) (ev : event) (exception_code : Z) : list effect :=
  if reply_rc ev =? -1 then
    [Syslog (if exception_code =? 0 then LogReplyFailed own_addr
             else LogExceptionReplyFailed own_addr)]
  else [].

(** A register map of the declared size. *)
Definition wf_reg_map (reg_map : list Z) : Prop := length reg_map = Z.to_nat MAX_REG.

(** The request is addressed to the responder. *)
Definition addressed (own_addr : Z) (r : modbus_request_t) : Prop :=
  uint8 (slave_addr r) = own_addr.

(** An effect that touches the register map. *)
Definition is_reg_access (e : effect) : bool :=
  match e with
  | RegRead _ | RegWrite _ _ => true
  | _ => false
  end.

(** An effect that sends something to the client. *)
Definition is_reply (e : effect) : bool :=
  match e with
  | ModbusReply _ _ | ModbusReplyException _ _ => true
  | _ => false
  end.

(** An effect without the frame it was caused by: what the dispatcher
    decided, whatever the bytes of the request were. *)
Definition erase_query (e : effect) : effect :=
  match e with
  | ModbusReply _ m => ModbusReply [] m
  | ModbusReplyException _ c => ModbusReplyException [] c
  | _ => e
  end.

(** The register count of a read request: the two bytes the program
    decodes as the register value. *)
Definition count_of (r : modbus_request_t) : Z := be16 (reg_val_hi r) (reg_val_lo r).

(** *** The scenarios of section 8 of the specification

    A responder with own address 5 on an RTU link (header length 1). *)

(** A turn of the loop in which [q] is received, the response structure
    is allocated and the reply is sent. *)
Definition served (q : list byte) : event :=
  {| received := Some q; mapping_alloc := true; reply_rc := 8 |}.

(** A turn in which [q] is received and the allocation fails. *)
Definition out_of_memory (q : list byte) : event :=
  {| received := Some q; mapping_alloc := false; reply_rc := 8 |}.

(** addr=5, fc=0x06, reg=10, val=1234 *)
Definition frame_A : list byte := [x05; x06; x00; x0a; x04; xd2].
(** addr=5, fc=0x03, reg=10, count=1 *)
Definition frame_B : list byte := [x05; x03; x00; x0a; x00; x01].
(** addr=5, fc=0x03, reg=40, count=1 *)
Definition frame_C : list byte := [x05; x03; x00; x28; x00; x01].
(** addr=9, fc=0x06, reg=0, val=1 *)
Definition frame_D : list byte := [x09; x06; x00; x00; x00; x01].
(** addr=5, fc=0x07, reg=0, val=0 *)
Definition frame_E : list byte := [x05; x07; x00; x00; x00; x00].

(** addr=5, fc=0x03, reg=0, count=2 *)
Definition frame_two_registers : list byte := [x05; x03; x00; x00; x00; x02].
(** addr=5, fc=0x03, reg=31, count=1 and count=5 *)
Definition frame_last_register : list byte := [x05; x03; x00; x1f; x00; x01].
Definition frame_past_the_end : list byte := [x05; x03; x00; x1f; x00; x05].
(** addr=5, fc=0x04, reg=10, count=1 *)
Definition frame_read_input : list byte := [x05; x04; x00; x0a; x00; x01].

(** A start of the program at which every set-up call succeeds. *)
Definition good_startup : startup :=
  {| argc := 3; arg_baudrate := 9600; arg_slave_addr := 5;
     new_rtu_ok := true; header_length_of_ctx := 1;
     connect_rc := 0; set_rts_rc := 0; set_rts_delay_rc := 0 |}.

(** *** Set-up of the port *)

Definition startup_succeeds (s : startup) : Prop :=
  new_rtu_ok s = true ∧ connect_rc s ≠ -1 ∧ set_rts_rc s ≠ -1 ∧ set_rts_delay_rc s ≠ -1.

Definition startup_fails (s : startup) : Prop :=
  new_rtu_ok s = false ∨ connect_rc s = -1 ∨ set_rts_rc s = -1 ∨ set_rts_delay_rc s = -1.

(** *** Two sentences of the specification that the program does not meet *)

(** Section 4.3, "a normal reply always includes every register requested
    in the order requested", read as: each entry of the payload of a read
    is the register map's value at the corresponding address. *)
Definition every_requested_register_is_from_the_map : Prop :=
  ∀ own hl ev q r rm,
    wf_reg_map rm →
    request_at hl q = Some r →
    addressed own r →
    mapping_alloc ev = true →
    operation_of r = 3 ∨ operation_of r = 4 →
    reg_addr_of r < MAX_REG →
    ∃ st rm' effects m,
      handle_request own hl ev q rm = Some (st, rm', effects) ∧
      ModbusReply q m ∈ effects ∧
      modbus_reply hl q m =
        Some (ReadReply own (operation_of r)
                (take (Z.to_nat (count_of r)) (drop (Z.to_nat (reg_addr_of r)) rm))).

(** Section 4.2, "Allocation or transport send failures are logged; the
    responder continues serving subsequent requests rather than
    terminating", for the allocation of the response structure. *)
Definition allocation_failure_is_survived : Prop :=
  ∀ own hl ev q r rm,
    received ev = Some q →
    request_at hl q = Some r →
    addressed own r →
    mapping_alloc ev = false →
    ∃ rm' effects,
      loop_turn own hl ev rm = Some (Continue, rm', effects) ∧
      Syslog (LogMappingFailed own) ∈ effects.

(** A turn whose frame, if there is one, is long enough to hold the
    request structure (the program's buffer always is). *)
Definition decodable (header_length : Z) (ev : event) : Prop :=
  ∀ q, received ev = Some q → is_Some (request_at header_length q).

(** Two requests that differ at most in the function code. *)
Definition agree_but_function (r1 r2 : modbus_request_t) : Prop :=
  slave_addr r2 = slave_addr r1 ∧
  reg_addr_hi r2 = reg_addr_hi r1 ∧ reg_addr_lo r2 = reg_addr_lo r1 ∧
  reg_val_hi r2 = reg_val_hi r1 ∧ reg_val_lo r2 = reg_val_lo r1.

(** Two requests that differ at most in the count field. *)
Definition agree_but_count (r1 r2 : modbus_request_t) : Prop :=
  slave_addr r2 = slave_addr r1 ∧ fc r2 = fc r1 ∧
  reg_addr_hi r2 = reg_addr_hi r1 ∧ reg_addr_lo r2 = reg_addr_lo r1.

(** *** One turn of the loop as a relation

    The ways a decoded request [r] (frame [q]) can be handled from the
    register map [rm]: the status of the turn, the register map after it
    and its effects. *)
Inductive handled (own_addr : Z) (ev : event) (q : list byte) (r : modbus_request_t)
    (rm : list Z) : status → list Z → list effect → Prop :=
| handled_unaddressed :
    uint8 (slave_addr r) ≠ own_addr →
    handled own_addr ev q r rm Continue rm []
| handled_no_mapping :
    addressed own_addr r →
    mapping_alloc ev = false →
    handled own_addr ev q r rm (Return (-1)) rm [Syslog (LogMappingFailed own_addr)]
| handled_read v :
    addressed own_addr r →
    mapping_alloc ev = true →
    operation_of r = 3 ∨ operation_of r = 4 →
    reg_addr_of r < MAX_REG →
    rm !! Z.to_nat (reg_addr_of r) = Some v →
    handled own_addr ev q r rm Continue rm
      (RegRead (reg_addr_of r)
         :: ModbusReply q (read_mapping (reg_addr_of r) v)
         :: reply_failure_log own_addr ev 0)
| handled_write :
    addressed own_addr r →
    mapping_alloc ev = true →
    operation_of r = 6 →
    reg_addr_of r < MAX_REG →
    (Z.to_nat (reg_addr_of r) < length rm)%nat →
    handled own_addr ev q r rm Continue
      (<[Z.to_nat (reg_addr_of r) := reg_val_of r]> rm)
      (RegWrite (reg_addr_of r) (reg_val_of r)
         :: ModbusReply q fresh_mapping
         :: reply_failure_log own_addr ev 0)
| handled_out_of_range :
    addressed own_addr r →
    mapping_alloc ev = true →
    operation_of r = 3 ∨ operation_of r = 4 ∨ operation_of r = 6 →
    MAX_REG <= reg_addr_of r →
    handled own_addr ev q r rm Continue rm
      (ModbusReplyException q MODBUS_EXCEPTION_ILLEGAL_DATA_ADDRESS
         :: reply_failure_log own_addr ev MODBUS_EXCEPTION_ILLEGAL_DATA_ADDRESS)
| handled_unsupported :
    addressed own_addr r →
    mapping_alloc ev = true →
    operation_of r ≠ 3 → operation_of r ≠ 4 → operation_of r ≠ 6 →
    handled own_addr ev q r rm Continue rm
      (Syslog (LogInvalidOperation (operation_of r))
         :: ModbusReplyException q MODBUS_EXCEPTION_ILLEGAL_FUNCTION
         :: reply_failure_log own_addr ev MODBUS_EXCEPTION_ILLEGAL_FUNCTION).

(** A value that fits a [uint16_t]. *)
Definition uint16_value (v : Z) : Prop := 0 <= v < 65536.

(** A turn that writes register [a]: it receives an addressed
    write-single-register request for that address. *)
Definition writes_to (own_addr header_length a : Z) (ev : event) : Prop :=
  ∃ q r, received ev = Some q ∧ request_at header_length q = Some r ∧
         addressed own_addr r ∧ operation_of r = 6 ∧ reg_addr_of r = a.

(** A turn in which a request addressed to the responder is received and
    the response structure is allocated. *)
Definition answered (own_addr header_length : Z) (ev : event) : bool :=
  match received ev with
  | Some q =>
      match request_at header_length q with
      | Some r => (uint8 (slave_addr r) =? own_addr) && mapping_alloc ev
      | None => false
      end
  | None => false
  end.

(** The replies among the effects. *)
Definition replies (effects : list effect) : list effect :=
  filter (λ e, is_reply e = true) effects.

(** The effects other than log lines. *)
Definition is_log (e : effect) : bool :=
  match e with
  | Syslog _ => true
  | _ => false
  end.

Definition without_log (effects : list effect) : list effect :=
  filter (λ e, is_log e = false) effects.

(** A register access within the register map, with a value that fits a
    register. *)
Definition access_in_bounds (e : effect) : Prop :=
  match e with
  | RegRead a => 0 <= a < MAX_REG
  | RegWrite a v => 0 <= a < MAX_REG ∧ uint16_value v
  | _ => True
  end.

(** The frame a reply answers. *)
Definition reply_query (e : effect) : option (list byte) :=
  match e with
  | ModbusReply q _ | ModbusReplyException q _ => Some q
  | _ => None
  end.

(** The frame of a turn that is answered. *)
Definition answered_frame (own_addr header_length : Z) (ev : event) : option (list byte) :=
  if answered own_addr header_length ev then received ev else None.

(** The same turn with a transmission that succeeds. *)
Definition transmitted (ev : event) : event :=
  {| received := received ev; mapping_alloc := mapping_alloc ev; reply_rc := 0 |}.

(** Two runs of the loop, one after the other. *)
Definition and_then (x : option (status * list Z * list effect))
    (k : list Z → option (status * list Z * list effect))
    : option (status * list Z * list effect) :=
  match x with
  | Some (Continue, rm1, e1) =>
      match k rm1 with
      | Some (st, rm2, e2) => Some (st, rm2, e1 ++ e2)
      | None => None
      end
  | other => other
  end.

(** addr=5, fc=0x06, reg=11, val=7 *)
Definition frame_write_11 : list byte := [x05; x06; x00; x0b; x00; x07].

(** *** The tools *)

(** A port on which every set-up call succeeds. *)
Definition good_port : Tool.port :=
  {| Tool.new_rtu_ok := true; Tool.connect_rc := 0;
     Tool.set_rts_rc := 0; Tool.set_rts_delay_rc := 0 |}.

(** The four parameters of [thconf] are acceptable: both baud rates are
    known and both slave addresses lie in 1..247. *)
Definition thconf_valid (a : Thconf.args) : Prop :=
  Thconf.check_baudrate (Thconf.baudrate a) ≠ 0 ∧
  Thconf.check_baudrate (Thconf.new_baudrate a) ≠ 0 ∧
  1 <= Thconf.slave_addr a <= 247 ∧
  1 <= Thconf.new_slave_addr a <= 247.

(** The baud rates [thconf] knows. *)
Definition thconf_baudrates : list Z := [1200; 2400; 4800; 9600; 19200].

(** The lines [mbm] prints for [n] registers of [tab] from [start] on. *)
Definition mbm_lines (start : Z) (n : nat) (tab : list Z) : list Mbm.output :=
  (λ i, Mbm.RegisterLine (Z.of_nat i) (start + Z.of_nat i) (tab !!! i)) <$> seq 0 n.



(** The log line that follows the reply of a turn when the reply cannot
    be transmitted; [e0] are the effects of the turn with the reply
    transmitted, of which the reply is the last. *)
Definition lost_reply_log (own_addr : Z) (ev : event) (e0 : list effect) : list effect :=
  if reply_rc ev =? -1 then
    match last e0 with
    | Some (ModbusReply _ _) => [Syslog (LogReplyFailed own_addr)]
    | Some (ModbusReplyException _ _) => [Syslog (LogExceptionReplyFailed own_addr)]
    | _ => []
    end
  else [].

(** One of the calls that set up the port fails: [modbus_new_rtu] gives
    no context, or [modbus_connect], [modbus_rtu_set_rts] or
    [modbus_rtu_set_rts_delay] returns -1. *)
Definition port_call_fails (p : Tool.port) : Prop :=
  Tool.new_rtu_ok p = false ∨ Tool.connect_rc p = -1 ∨
  Tool.set_rts_rc p = -1 ∨ Tool.set_rts_delay_rc p = -1.



(** ** Proof steps *)

(** Closes a goal that runs the rest of a computation to its end. *)
Ltac run_to_end :=
  unfold bind, ret, emit; cbn [app]; rewrite ?app_nil_r; reflexivity.

(** ** Machine integers: ranges *)

Lemma uint8_range b : 0 <= uint8 b < 256.
Proof.
  unfold uint8. pose proof (Byte.to_N_bounded b) as Hb.
  split; [apply N2Z.is_nonneg | ]. lia.
Qed.

Lemma be16_range hi lo : 0 <= be16 hi lo < 65536.
Proof.
  unfold be16.
  pose proof (uint8_range hi) as Hh. pose proof (uint8_range lo) as Hl.
  assert (Hs : 0 <= Z.shiftl (uint8 hi) 8 < 2 ^ 16).
  { rewrite Z.shiftl_mul_pow2 by lia. change (2 ^ 8) with 256. change (2 ^ 16) with 65536. lia. }
  assert (Hl' : 0 <= uint8 lo < 2 ^ 16) by (change (2 ^ 16) with 65536; lia).
  split.
  - apply Z.lor_nonneg. split; lia.
  - change 65536 with (2 ^ 16).
    destruct (Z.eq_dec (Z.lor (Z.shiftl (uint8 hi) 8) (uint8 lo)) 0) as [->|Hne]; [reflexivity|].
    apply Z.log2_lt_pow2.
    + assert (0 <= Z.lor (Z.shiftl (uint8 hi) 8) (uint8 lo)) by (apply Z.lor_nonneg; lia). lia.
    + rewrite Z.log2_lor by lia.
      apply Z.max_lub_lt.
      * destruct (Z.eq_dec (Z.shiftl (uint8 hi) 8) 0) as [->|Hn]; [reflexivity|].
        apply Z.log2_lt_pow2; lia.
      * destruct (Z.eq_dec (uint8 lo) 0) as [->|Hn]; [reflexivity|].
        apply Z.log2_lt_pow2; lia.
Qed.

(** The conversion to [uint16_t] loses nothing of a value made of two bytes. *)
Lemma to_uint16_be16 hi lo : to_uint16 (be16 hi lo) = be16 hi lo.
Proof.
  unfold to_uint16. change 0xFFFF with (Z.ones 16).
  rewrite Z.land_ones by lia.
  apply Z.mod_small. pose proof (be16_range hi lo). change (2 ^ 16) with 65536. lia.
Qed.

Lemma reg_addr_of_range r : 0 <= reg_addr_of r < 65536.
Proof. apply be16_range. Qed.

Lemma reg_val_of_be16 r : reg_val_of r = be16 (reg_val_hi r) (reg_val_lo r).
Proof. apply to_uint16_be16. Qed.

(** ** Decoding *)

Lemma request_at_fields hl q r :
  request_at hl q = Some r →
  frame_byte hl q 0 = Some (slave_addr r) ∧
  frame_byte hl q 1 = Some (fc r) ∧
  frame_byte hl q 2 = Some (reg_addr_hi r) ∧
  frame_byte hl q 3 = Some (reg_addr_lo r) ∧
  frame_byte hl q 4 = Some (reg_val_hi r) ∧
  frame_byte hl q 5 = Some (reg_val_lo r).
Proof.
  unfold request_at. intros H.
  destruct (frame_byte hl q 0) as [b0|]; [|discriminate].
  destruct (frame_byte hl q 1) as [b1|]; [|discriminate].
  destruct (frame_byte hl q 2) as [b2|]; [|discriminate].
  destruct (frame_byte hl q 3) as [b3|]; [|discriminate].
  destruct (frame_byte hl q 4) as [b4|]; [|discriminate].
  destruct (frame_byte hl q 5) as [b5|]; [|discriminate].
  simpl in H. injection H as <-. simpl. repeat split.
Qed.

(** ** The switch *)

(** The [switch] as a chain of comparisons. *)
Lemma perform_cases op a v mb :
  perform op a v mb =
  if (op =? 3) || (op =? 4) then
    if a <? MAX_REG then
      bind (read_reg a) (λ x,
        match x with
        | (rc, reg_val) =>
            if negb (rc =? 0) then ret (MODBUS_EXCEPTION_SLAVE_OR_SERVER_FAILURE, mb)
            else bind (lift (set_tab_register mb a reg_val)) (λ m, ret (0, m))
        end)
    else ret (MODBUS_EXCEPTION_ILLEGAL_DATA_ADDRESS, mb)
  else if op =? 6 then
    if a <? MAX_REG then
      bind (write_reg a v) (λ rc,
        if negb (rc =? 0) then ret (MODBUS_EXCEPTION_SLAVE_OR_SERVER_FAILURE, mb)
        else ret (0, mb))
    else ret (MODBUS_EXCEPTION_ILLEGAL_DATA_ADDRESS, mb)
  else bind (emit (Syslog (LogInvalidOperation op)))
            (λ _, ret (MODBUS_EXCEPTION_ILLEGAL_FUNCTION, mb)).
Proof.
  destruct op as [|p|p]; try reflexivity.
  destruct p as [[p|p|]|[p|p|]|]; try reflexivity;
    destruct p; reflexivity.
Qed.

Lemma perform_read op a v mb rm x :
  op = 3 ∨ op = 4 →
  0 <= a < MAX_REG →
  rm !! Z.to_nat a = Some x →
  (Z.to_nat a < length (tab_registers mb))%nat →
  perform op a v mb rm =
  Some ((0, {| nb_bits := nb_bits mb; nb_input_bits := nb_input_bits mb;
               nb_registers := nb_registers mb;
               nb_input_registers := nb_input_registers mb;
               tab_registers := <[Z.to_nat a := x]> (tab_registers mb) |}),
        rm, [RegRead a]).
Proof.
  intros Hop [Ha0 Ha] Hx Hlen. rewrite perform_cases.
  assert (((op =? 3) || (op =? 4)) = true) as ->
    by (destruct Hop as [-> | ->]; reflexivity).
  assert ((a <? MAX_REG) = true) as -> by (apply Z.ltb_lt; exact Ha).
  unfold bind, read_reg, lift, set_tab_register, ret.
  assert ((a <? 0) = false) as -> by (apply Z.ltb_ge; exact Ha0).
  rewrite Hx. cbn [negb Z.eqb].
  assert ((0 <=? a) = true) as -> by (apply Z.leb_le; exact Ha0).
  assert ((Z.to_nat a <? length (tab_registers mb))%nat = true) as ->
    by (apply Nat.ltb_lt; exact Hlen).
  reflexivity.
Qed.

Lemma perform_write a v mb rm :
  0 <= a < MAX_REG →
  (Z.to_nat a < length rm)%nat →
  perform 6 a v mb rm = Some ((0, mb), <[Z.to_nat a := v]> rm, [RegWrite a v]).
Proof.
  intros [Ha0 Ha] Hlen. rewrite perform_cases. cbn [Z.eqb Pos.eqb orb].
  assert ((a <? MAX_REG) = true) as -> by (apply Z.ltb_lt; exact Ha).
  unfold bind, write_reg, ret.
  assert ((0 <=? a) = true) as -> by (apply Z.leb_le; exact Ha0).
  assert ((Z.to_nat a <? length rm)%nat = true) as ->
    by (apply Nat.ltb_lt; exact Hlen).
  reflexivity.
Qed.

Lemma perform_out_of_range op a v mb rm :
  op = 3 ∨ op = 4 ∨ op = 6 →
  MAX_REG <= a →
  perform op a v mb rm = Some ((MODBUS_EXCEPTION_ILLEGAL_DATA_ADDRESS, mb), rm, []).
Proof.
  intros Hop Ha. rewrite perform_cases.
  assert ((a <? MAX_REG) = false) as -> by (apply Z.ltb_ge; exact Ha).
  destruct Hop as [-> | [-> | ->]]; reflexivity.
Qed.

Lemma perform_unsupported op a v mb rm :
  op ≠ 3 → op ≠ 4 → op ≠ 6 →
  perform op a v mb rm =
  Some ((MODBUS_EXCEPTION_ILLEGAL_FUNCTION, mb), rm, [Syslog (LogInvalidOperation op)]).
Proof.
  intros H3 H4 H6. rewrite perform_cases.
  apply Z.eqb_neq in H3, H4, H6. rewrite H3, H4, H6. reflexivity.
Qed.

(** ** Sending the reply *)

Lemma send_reply_normal own ev q mb rm :
  send_reply own ev q 0 mb rm =
  Some (tt, rm, ModbusReply q mb :: reply_failure_log own ev 0).
Proof.
  unfold send_reply, reply_failure_log, bind, emit, ret. cbn [Z.eqb].
  destruct (reply_rc ev =? -1); reflexivity.
Qed.

Lemma send_reply_exception own ev q c mb rm :
  c ≠ 0 →
  send_reply own ev q c mb rm =
  Some (tt, rm, ModbusReplyException q c :: reply_failure_log own ev c).
Proof.
  intros Hc. apply Z.eqb_neq in Hc.
  unfold send_reply, reply_failure_log, bind, emit, ret. rewrite Hc.
  destruct (reply_rc ev =? -1); reflexivity.
Qed.

(** ** One request *)

(** A decoded request that is addressed to the responder and for which
    the response structure could be allocated reaches the switch. *)
Lemma handle_request_addressed own hl ev q r rm :
  request_at hl q = Some r →
  addressed own r →
  mapping_alloc ev = true →
  handle_request own hl ev q rm =
  bind (perform (operation_of r) (reg_addr_of r) (reg_val_of r) fresh_mapping)
       (λ x, match x with
             | (exception_code, mb_mapping) =>
                 bind (send_reply own ev q exception_code mb_mapping) (λ _, ret Continue)
             end) rm.
Proof.
  intros Hq Ha Halloc. unfold handle_request, bind at 1, lift.
  rewrite Hq. unfold addressed in Ha. rewrite Ha, Z.eqb_refl. cbn [negb].
  rewrite Halloc. unfold modbus_mapping_new.
  change {| nb_bits := 0; nb_input_bits := 0; nb_registers := MAX_REG;
            nb_input_registers := 0;
            tab_registers := replicate (Z.to_nat MAX_REG) 0 |} with fresh_mapping.
  destruct (bind _ _ rm) as [[[s rm'] e]|]; reflexivity.
Qed.

Lemma handle_request_unaddressed own hl ev q r rm :
  request_at hl q = Some r →
  uint8 (slave_addr r) ≠ own →
  handle_request own hl ev q rm = Some (Continue, rm, []).
Proof.
  intros Hq Ha. unfold handle_request, bind, lift.
  rewrite Hq. apply Z.eqb_neq in Ha. rewrite Ha. reflexivity.
Qed.

Lemma handle_request_no_mapping own hl ev q r rm :
  request_at hl q = Some r →
  addressed own r →
  mapping_alloc ev = false →
  handle_request own hl ev q rm = Some (Return (-1), rm, [Syslog (LogMappingFailed own)]).
Proof.
  intros Hq Ha Halloc. unfold handle_request, bind, lift.
  rewrite Hq. unfold addressed in Ha. rewrite Ha, Z.eqb_refl. cbn [negb].
  rewrite Halloc. reflexivity.
Qed.

(** ** The replies built for a decoded request *)

Lemma modbus_reply_write hl q r m :
  request_at hl q = Some r →
  operation_of r = 6 →
  modbus_reply hl q m =
  Some (WriteReply (uint8 (slave_addr r)) 6 (reg_addr_of r) (reg_val_of r)).
Proof.
  intros Hq Hop. apply request_at_fields in Hq as (H0 & H1 & H2 & H3 & H4 & H5).
  unfold modbus_reply. rewrite H0, H1, H2, H3, H4, H5. cbn [mbind option_bind].
  unfold operation_of in Hop. rewrite Hop, reg_val_of_be16. reflexivity.
Qed.

Lemma modbus_reply_read hl q r m :
  request_at hl q = Some r →
  operation_of r = 3 ∨ operation_of r = 4 →
  modbus_reply hl q m =
  Some (ReadReply (uint8 (slave_addr r)) (operation_of r)
          (requested_registers m (reg_addr_of r) (count_of r))).
Proof.
  intros Hq Hop. apply request_at_fields in Hq as (H0 & H1 & H2 & H3 & H4 & H5).
  unfold modbus_reply. rewrite H0, H1, H2, H3, H4, H5. cbn [mbind option_bind].
  unfold operation_of in *. destruct Hop as [-> | ->]; reflexivity.
Qed.

Lemma modbus_reply_exception_decoded hl q r c :
  request_at hl q = Some r →
  modbus_reply_exception hl q c =
  Some (ExceptionReply (uint8 (slave_addr r)) (Z.lor (operation_of r) 0x80) c).
Proof.
  intros Hq. apply request_at_fields in Hq as (H0 & H1 & _).
  unfold modbus_reply_exception. rewrite H0, H1. reflexivity.
Qed.

(** ** Write Single Register *)

(** C1. A write-single-register request (function code 0x06) addressed to
    the responder, with register address below [MAX_REG]: the request is
    answered normally, the register map afterwards holds the value at the
    address (and is otherwise as before), the only access to the map is
    that write, and the reply echoes function code, register address and
    value. *)
Theorem C1_write_updates_map_and_echoes own hl ev q r rm :
  wf_reg_map rm →
  request_at hl q = Some r →
  addressed own r →
  mapping_alloc ev = true →
  operation_of r = 6 →
  reg_addr_of r < MAX_REG →
  ∃ rm',
    handle_request own hl ev q rm =
      Some (Continue, rm',
            RegWrite (reg_addr_of r) (reg_val_of r)
              :: ModbusReply q fresh_mapping :: reply_failure_log own ev 0) ∧
    rm' = <[Z.to_nat (reg_addr_of r) := reg_val_of r]> rm ∧
    rm' !! Z.to_nat (reg_addr_of r) = Some (reg_val_of r) ∧
    modbus_reply hl q fresh_mapping =
      Some (WriteReply own 6 (reg_addr_of r) (reg_val_of r)).
Proof.
  intros Hwf Hq Hown Halloc Hop Ha.
  pose proof (reg_addr_of_range r) as [Ha0 _].
  assert (Hlen : (Z.to_nat (reg_addr_of r) < length rm)%nat).
  { rewrite Hwf. apply Z2Nat.inj_lt; [exact Ha0 | discriminate | exact Ha]. }
  exists (<[Z.to_nat (reg_addr_of r) := reg_val_of r]> rm).
  split_and!; [| reflexivity | |].
  - rewrite (handle_request_addressed own hl ev q r rm Hq Hown Halloc), Hop.
    unfold bind at 1. rewrite perform_write by first [assumption | split; assumption].
    unfold bind at 1. rewrite send_reply_normal. run_to_end.
  - apply list_lookup_insert_eq. exact Hlen.
  - rewrite (modbus_reply_write hl q r _ Hq Hop). unfold addressed in Hown.
    rewrite Hown. reflexivity.
Qed.

(** Scenario A: own address 5, zeroed map, request (5, 0x06, 10, 1234). *)
Lemma C1_scenario_A :
  ∃ rm',
    handle_request 5 1 (served frame_A) frame_A reg_map0 =
      Some (Continue, rm', [RegWrite 10 1234; ModbusReply frame_A fresh_mapping]) ∧
    rm' = <[10%nat := 1234]> reg_map0 ∧
    rm' !! 10%nat = Some 1234 ∧
    modbus_reply 1 frame_A fresh_mapping = Some (WriteReply 5 6 10 1234).
Proof.
  exact (C1_write_updates_map_and_echoes 5 1 (served frame_A) frame_A
           {| slave_addr := x05; fc := x06; reg_addr_hi := x00; reg_addr_lo := x0a;
              reg_val_hi := x04; reg_val_lo := xd2 |} reg_map0
           eq_refl eq_refl eq_refl eq_refl eq_refl eq_refl).
Defined.

(** ** Register address out of range *)

(** C2. An addressed read (0x03, 0x04) or write (0x06) whose register
    address is [MAX_REG] or more: the register map is left as it was, the
    request causes no access to the map at all, and the reply is an
    exception reply with code Illegal Data Address (0x02).  This holds for
    every register map, whatever its contents. *)
Theorem C2_out_of_range_is_illegal_data_address own hl ev q r rm :
  request_at hl q = Some r →
  addressed own r →
  mapping_alloc ev = true →
  operation_of r = 3 ∨ operation_of r = 4 ∨ operation_of r = 6 →
  MAX_REG <= reg_addr_of r →
  handle_request own hl ev q rm =
    Some (Continue, rm,
          ModbusReplyException q MODBUS_EXCEPTION_ILLEGAL_DATA_ADDRESS
            :: reply_failure_log own ev MODBUS_EXCEPTION_ILLEGAL_DATA_ADDRESS) ∧
  Forall (λ e, is_reg_access e = false)
    (ModbusReplyException q MODBUS_EXCEPTION_ILLEGAL_DATA_ADDRESS
       :: reply_failure_log own ev MODBUS_EXCEPTION_ILLEGAL_DATA_ADDRESS) ∧
  MODBUS_EXCEPTION_ILLEGAL_DATA_ADDRESS = 0x02.
Proof.
  intros Hq Hown Halloc Hop Ha. split_and!.
  - rewrite (handle_request_addressed own hl ev q r rm Hq Hown Halloc).
    unfold bind at 1. rewrite perform_out_of_range by assumption.
    unfold bind at 1. rewrite send_reply_exception by discriminate. run_to_end.
  - constructor; [reflexivity|].
    unfold reply_failure_log. destruct (reply_rc ev =? -1); repeat constructor.
  - reflexivity.
Qed.

(** Scenario C: request (5, 0x03, 40, 1) with 32 registers. *)
Lemma C2_scenario_C :
  handle_request 5 1 (served frame_C) frame_C reg_map0 =
    Some (Continue, reg_map0, [ModbusReplyException frame_C 2]) ∧
  Forall (λ e, is_reg_access e = false) [ModbusReplyException frame_C 2] ∧
  MODBUS_EXCEPTION_ILLEGAL_DATA_ADDRESS = 0x02.
Proof.
  apply (C2_out_of_range_is_illegal_data_address 5 1 (served frame_C) frame_C
           {| slave_addr := x05; fc := x03; reg_addr_hi := x00; reg_addr_lo := x28;
              reg_val_hi := x00; reg_val_lo := x01 |} reg_map0).
  - reflexivity.
  - reflexivity.
  - reflexivity.
  - left. reflexivity.
  - vm_compute. discriminate.
Defined.

(** ** Reading a register *)

Lemma requested_registers_read_mapping a v c :
  0 <= a < MAX_REG →
  requested_registers (read_mapping a v) a c =
  take (Z.to_nat c) (v :: replicate (Z.to_nat MAX_REG - S (Z.to_nat a)) 0).
Proof.
  intros Ha. unfold requested_registers, read_mapping. cbn [tab_registers].
  rewrite insert_replicate_lt by (unfold MAX_REG in *; lia).
  rewrite drop_app_length' by (rewrite length_replicate; reflexivity).
  reflexivity.
Qed.

(** The read path, for a register map of the declared size. *)
Lemma handle_request_read own hl ev q r rm :
  wf_reg_map rm →
  request_at hl q = Some r →
  addressed own r →
  mapping_alloc ev = true →
  operation_of r = 3 ∨ operation_of r = 4 →
  reg_addr_of r < MAX_REG →
  ∃ v,
    rm !! Z.to_nat (reg_addr_of r) = Some v ∧
    handle_request own hl ev q rm =
      Some (Continue, rm,
            RegRead (reg_addr_of r)
              :: ModbusReply q (read_mapping (reg_addr_of r) v)
              :: reply_failure_log own ev 0).
Proof.
  intros Hwf Hq Hown Halloc Hop Ha.
  pose proof (reg_addr_of_range r) as [Ha0 _].
  assert (Hlen : (Z.to_nat (reg_addr_of r) < length rm)%nat).
  { rewrite Hwf. apply Z2Nat.inj_lt; [exact Ha0 | discriminate | exact Ha]. }
  destruct (lookup_lt_is_Some_2 rm _ Hlen) as [v Hv].
  exists v. split; [exact Hv|].
  rewrite (handle_request_addressed own hl ev q r rm Hq Hown Halloc).
  unfold bind at 1.
  rewrite (perform_read _ _ _ fresh_mapping rm v Hop (conj Ha0 Ha) Hv)
    by (cbn [fresh_mapping tab_registers]; rewrite length_replicate;
        apply Z2Nat.inj_lt; [exact Ha0 | discriminate | exact Ha]).
  unfold bind at 1. rewrite send_reply_normal. run_to_end.
Qed.




(** ** Address filtering *)

(** C4. A frame whose slave address is not the responder's own address is
    dropped: the turn has no effect at all (no normal reply, no exception
    reply, no log line, no access to the register map), the register map
    is unchanged and the loop goes on.  This is so for every function code
    and whether or not a response structure could be allocated: the
    address is compared before anything else is looked at. *)
Theorem C4_unaddressed_frame_is_discarded own hl ev q r rm :
  request_at hl q = Some r →
  uint8 (slave_addr r) ≠ own →
  handle_request own hl ev q rm = Some (Continue, rm, []) ∧
  ∀ st rm' effects,
    handle_request own hl ev q rm = Some (st, rm', effects) →
    Forall (λ e, is_reply e = false) effects ∧
    ModbusReplyException q MODBUS_EXCEPTION_ILLEGAL_FUNCTION ∉ effects.
Proof.
  intros Hq Hne.
  pose proof (handle_request_unaddressed own hl ev q r rm Hq Hne) as Hrun.
  split; [exact Hrun|].
  intros st rm' effects Heq. rewrite Hrun in Heq. injection Heq as <- <- <-.
  split; [constructor | apply not_elem_of_nil].
Qed.

(** Scenario D: request (9, 0x06, 0, 1) sent to the responder with own
    address 5. *)
Lemma C4_scenario_D :
  handle_request 5 1 (served frame_D) frame_D reg_map0 = Some (Continue, reg_map0, []) ∧
  ∀ st rm' effects,
    handle_request 5 1 (served frame_D) frame_D reg_map0 = Some (st, rm', effects) →
    Forall (λ e, is_reply e = false) effects ∧
    ModbusReplyException frame_D MODBUS_EXCEPTION_ILLEGAL_FUNCTION ∉ effects.
Proof.
  apply (C4_unaddressed_frame_is_discarded 5 1 (served frame_D) frame_D
           {| slave_addr := x09; fc := x06; reg_addr_hi := x00; reg_addr_lo := x00;
              reg_val_hi := x00; reg_val_lo := x01 |} reg_map0).
  - reflexivity.
  - vm_compute. discriminate.
Defined.

(** ** Unsupported function codes *)

(** C5. An addressed request whose function code is none of 0x03, 0x04
    and 0x06: the register map is unchanged and not accessed, the
    operation is logged as invalid, and the reply is an exception reply
    with code Illegal Function (0x01) whose function code byte is the
    request's with the high bit set. *)
Theorem C5_unsupported_function_is_illegal_function own hl ev q r rm :
  request_at hl q = Some r →
  addressed own r →
  mapping_alloc ev = true →
  operation_of r ≠ 3 → operation_of r ≠ 4 → operation_of r ≠ 6 →
  handle_request own hl ev q rm =
    Some (Continue, rm,
          Syslog (LogInvalidOperation (operation_of r))
            :: ModbusReplyException q MODBUS_EXCEPTION_ILLEGAL_FUNCTION
            :: reply_failure_log own ev MODBUS_EXCEPTION_ILLEGAL_FUNCTION) ∧
  modbus_reply_exception hl q MODBUS_EXCEPTION_ILLEGAL_FUNCTION =
    Some (ExceptionReply own (Z.lor (operation_of r) 0x80) 0x01) ∧
  Z.testbit (Z.lor (operation_of r) 0x80) 7 = true.
Proof.
  intros Hq Hown Halloc H3 H4 H6. split_and!.
  - rewrite (handle_request_addressed own hl ev q r rm Hq Hown Halloc).
    unfold bind at 1. rewrite perform_unsupported by assumption.
    unfold bind at 1. rewrite send_reply_exception by discriminate. run_to_end.
  - rewrite (modbus_reply_exception_decoded hl q r _ Hq).
    unfold addressed in Hown. rewrite Hown. reflexivity.
  - rewrite Z.lor_spec. apply orb_true_r.
Qed.

(** Scenario E: request (5, 0x07, 0, 0). *)
Lemma C5_scenario_E :
  handle_request 5 1 (served frame_E) frame_E reg_map0 =
    Some (Continue, reg_map0,
          [Syslog (LogInvalidOperation 7); ModbusReplyException frame_E 1]) ∧
  modbus_reply_exception 1 frame_E 1 = Some (ExceptionReply 5 0x87 0x01) ∧
  Z.testbit 0x87 7 = true.
Proof.
  apply (C5_unsupported_function_is_illegal_function 5 1 (served frame_E) frame_E
           {| slave_addr := x05; fc := x07; reg_addr_hi := x00; reg_addr_lo := x00;
              reg_val_hi := x00; reg_val_lo := x00 |} reg_map0).
  - reflexivity.
  - reflexivity.
  - reflexivity.
  - vm_compute. discriminate.
  - vm_compute. discriminate.
  - vm_compute. discriminate.
Defined.

(** ** Reads of more than one register *)

(** Only the register at the start address is copied out of the register
    map; the other entries of the payload are those of the new response
    structure.  With register 1 holding 7, a read of two registers from
    address 0 is answered by the payload [0; 0]. *)
Lemma two_registers_run :
  handle_request 5 1 (served frame_two_registers) frame_two_registers
    (<[1%nat := 7]> reg_map0) =
    Some (Continue, <[1%nat := 7]> reg_map0,
          [RegRead 0; ModbusReply frame_two_registers (read_mapping 0 0)]) ∧
  modbus_reply 1 frame_two_registers (read_mapping 0 0) = Some (ReadReply 5 3 [0; 0]) ∧
  take 2 (drop 0 (<[1%nat := 7]> reg_map0)) = [0; 7].
Proof. split_and!; reflexivity. Qed.

(** C6, as the specification has it, fails: at own address 5, register 1
    holding 7, request (5, 0x03, 0, 2) the payload is [0; 0], not
    [0; 7]. *)
Lemma C6_later_entries_are_not_from_the_map :
  ¬ every_requested_register_is_from_the_map.
Proof.
  intros Hclaim.
  assert (Hwf : wf_reg_map (<[1%nat := 7]> reg_map0)) by reflexivity.
  destruct (Hclaim 5 1 (served frame_two_registers) frame_two_registers
              {| slave_addr := x05; fc := x03; reg_addr_hi := x00; reg_addr_lo := x00;
                 reg_val_hi := x00; reg_val_lo := x02 |} (<[1%nat := 7]> reg_map0)
              Hwf eq_refl eq_refl eq_refl (or_introl eq_refl) eq_refl)
    as (st & rm' & effects & m & Hrun & Hin & Hreply).
  destruct two_registers_run as (Hrun' & Hreply' & _).
  rewrite Hrun' in Hrun. injection Hrun as _ _ <-.
  apply elem_of_cons in Hin as [Hin | Hin]; [discriminate Hin|].
  apply list_elem_of_singleton in Hin. injection Hin as ->.
  rewrite Hreply' in Hreply. discriminate Hreply.
Qed.

(** C6, amended.  An addressed read of a register address below
    [MAX_REG] with any count: the reply is a normal reply whose payload
    lists as many registers as requested (as far as the table goes), in
    order, out of the new response structure.  Its first entry is the
    register map's value at the start address; every later entry is the
    zero the structure was created with. *)
Theorem C6_payload_is_first_register_then_zeros own hl ev q r rm :
  wf_reg_map rm →
  request_at hl q = Some r →
  addressed own r →
  mapping_alloc ev = true →
  operation_of r = 3 ∨ operation_of r = 4 →
  reg_addr_of r < MAX_REG →
  ∃ v m payload,
    rm !! Z.to_nat (reg_addr_of r) = Some v ∧
    handle_request own hl ev q rm =
      Some (Continue, rm,
            RegRead (reg_addr_of r) :: ModbusReply q m :: reply_failure_log own ev 0) ∧
    modbus_reply hl q m = Some (ReadReply own (operation_of r) payload) ∧
    payload = take (Z.to_nat (count_of r))
                (v :: replicate (Z.to_nat MAX_REG - S (Z.to_nat (reg_addr_of r))) 0) ∧
    (reg_addr_of r + count_of r <= MAX_REG → length payload = Z.to_nat (count_of r)) ∧
    (∀ i x, payload !! S i = Some x → x = 0).
Proof.
  intros Hwf Hq Hown Halloc Hop Ha.
  pose proof (reg_addr_of_range r) as [Ha0 _].
  destruct (handle_request_read own hl ev q r rm Hwf Hq Hown Halloc Hop Ha)
    as (v & Hv & Hrun).
  exists v, (read_mapping (reg_addr_of r) v). eexists.
  split_and!; [exact Hv | exact Hrun | | reflexivity | |].
  - rewrite (modbus_reply_read hl q r _ Hq Hop).
    rewrite requested_registers_read_mapping by (split; assumption).
    unfold addressed in Hown. rewrite Hown. reflexivity.
  - intros Hc. rewrite length_take. cbn [length]. rewrite length_replicate.
    pose proof (be16_range (reg_val_hi r) (reg_val_lo r)) as Hcount.
    unfold count_of, MAX_REG in *. lia.
  - intros i x Hix. apply lookup_take_Some in Hix as [Hix _].
    cbn in Hix. apply lookup_replicate in Hix as [-> _]. reflexivity.
Qed.

Lemma C6_two_registers_witness :
  ∃ v m payload,
    <[1%nat := 7]> reg_map0 !! 0%nat = Some v ∧
    handle_request 5 1 (served frame_two_registers) frame_two_registers
      (<[1%nat := 7]> reg_map0) =
      Some (Continue, <[1%nat := 7]> reg_map0,
            [RegRead 0; ModbusReply frame_two_registers m]) ∧
    modbus_reply 1 frame_two_registers m = Some (ReadReply 5 3 payload) ∧
    payload = take 2 (v :: replicate 31 0) ∧
    (0 + 2 <= MAX_REG → length payload = 2%nat) ∧
    (∀ i x, payload !! S i = Some x → x = 0).
Proof.
  apply (C6_payload_is_first_register_then_zeros 5 1
           (served frame_two_registers) frame_two_registers
           {| slave_addr := x05; fc := x03; reg_addr_hi := x00; reg_addr_lo := x00;
              reg_val_hi := x00; reg_val_lo := x02 |} (<[1%nat := 7]> reg_map0)).
  - reflexivity.
  - reflexivity.
  - reflexivity.
  - reflexivity.
  - left. reflexivity.
  - reflexivity.
Defined.

(** ** Failures *)

Lemma init_port_succeeds s rm :
  startup_succeeds s → init_port s rm = Some (Continue, rm, []).
Proof.
  intros (Hn & Hc & Hr & Hd). unfold init_port. rewrite Hn. cbn [negb].
  apply Z.eqb_neq in Hc, Hr, Hd. rewrite Hc, Hr, Hd.
  rewrite !andb_false_r. reflexivity.
Qed.

Lemma init_port_fails s rm :
  startup_fails s → ∃ msg, init_port s rm = Some (Return (-1), rm, [Syslog msg]).
Proof.
  intros Hf. unfold startup_fails in Hf. unfold init_port.
  destruct (new_rtu_ok s) eqn:Hn; cbn [negb]; [| eexists; reflexivity].
  destruct (connect_rc s =? -1) eqn:Hc; [eexists; reflexivity |].
  change not_usb with true. change (0 <? RTS_DELAY) with true. cbn [andb].
  destruct (set_rts_rc s =? -1) eqn:Hr; [eexists; reflexivity |].
  destruct (set_rts_delay_rc s =? -1) eqn:Hd; [eexists; reflexivity |].
  apply Z.eqb_neq in Hc, Hr, Hd.
  destruct Hf as [Hf | [Hf | [Hf | Hf]]]; congruence.
Qed.

(** A turn in which the response structure cannot be allocated ends the
    loop, whatever would have come after it. *)
Lemma main_loop_no_mapping own hl rc ev rest q r rm :
  received ev = Some q →
  request_at hl q = Some r →
  addressed own r →
  mapping_alloc ev = false →
  main_loop own hl rc (ev :: rest) rm =
  Some (Return (-1), rm, [Syslog (LogMappingFailed own)]).
Proof.
  intros Hrecv Hq Hown Halloc. cbn [main_loop]. change (cont =? 0) with false.
  cbv iota. unfold bind, loop_turn. rewrite Hrecv.
  rewrite (handle_request_no_mapping own hl ev q r rm Hq Hown Halloc).
  reflexivity.
Qed.

(** A failed receive and a failed transmission are logged and the loop
    goes on. *)
Lemma loop_turn_receive_failed own hl ev rm :
  received ev = None →
  loop_turn own hl ev rm = Some (Continue, rm, [Syslog (LogReceiveFailed own)]).
Proof. intros H. unfold loop_turn. rewrite H. reflexivity. Qed.

(** C7, as the specification has it, fails: at own address 5, when the
    response structure for request A cannot be allocated, the turn ends
    with [return -1], not with the next turn. *)
Lemma C7_allocation_failure_ends_the_loop : ¬ allocation_failure_is_survived.
Proof.
  intros Hclaim.
  destruct (Hclaim 5 1 (out_of_memory frame_A) frame_A
              {| slave_addr := x05; fc := x06; reg_addr_hi := x00; reg_addr_lo := x0a;
                 reg_val_hi := x04; reg_val_lo := xd2 |} reg_map0
              eq_refl eq_refl eq_refl eq_refl)
    as (rm' & effects & Hrun & _).
  discriminate Hrun.
Qed.

(** C7, amended.  When the response structure of a request cannot be
    allocated, the failure is logged and [main] returns -1: no reply is
    sent, the register map is as it was, and the requests that would have
    followed are not served.  A failure while the port is set up is fatal
    in the same way: it is logged and [main] returns -1. *)
Theorem C7_allocation_failure_is_fatal s ev rest q r rm :
  3 <= argc s →
  startup_succeeds s →
  received ev = Some q →
  request_at (header_length_of_ctx s) q = Some r →
  addressed (arg_slave_addr s) r →
  mapping_alloc ev = false →
  main s (ev :: rest) rm =
    Some (Return (-1), rm, [Syslog (LogMappingFailed (arg_slave_addr s))]) ∧
  (-1 ≠ 0) ∧
  ∀ s' events rm',
    3 <= argc s' → startup_fails s' →
    ∃ msg, main s' events rm' = Some (Return (-1), rm', [Syslog msg]).
Proof.
  intros Hargc Hstart Hrecv Hq Hown Halloc. split_and!.
  - unfold main. assert ((argc s <? 3) = false) as -> by (apply Z.ltb_ge; exact Hargc).
    unfold bind at 1. rewrite (init_port_succeeds s rm Hstart).
    rewrite (main_loop_no_mapping _ _ _ ev rest q r rm Hrecv Hq Hown Halloc).
    reflexivity.
  - discriminate.
  - intros s' events rm' Hargc' Hfail. unfold main.
    assert ((argc s' <? 3) = false) as -> by (apply Z.ltb_ge; exact Hargc').
    destruct (init_port_fails s' rm' Hfail) as [msg Hmsg].
    exists msg. unfold bind. rewrite Hmsg. reflexivity.
Qed.

(** The allocation fails for request A; request B, which follows, is
    never served. *)
Lemma C7_out_of_memory_witness :
  main good_startup [out_of_memory frame_A; served frame_B] reg_map0 =
    Some (Return (-1), reg_map0, [Syslog (LogMappingFailed 5)]) ∧
  (-1 ≠ 0) ∧
  ∀ s' events rm',
    3 <= argc s' → startup_fails s' →
    ∃ msg, main s' events rm' = Some (Return (-1), rm', [Syslog msg]).
Proof.
  apply (C7_allocation_failure_is_fatal good_startup (out_of_memory frame_A)
           [served frame_B] frame_A
           {| slave_addr := x05; fc := x06; reg_addr_hi := x00; reg_addr_lo := x0a;
              reg_val_hi := x04; reg_val_lo := xd2 |} reg_map0).
  - vm_compute. discriminate.
  - unfold startup_succeeds. vm_compute. repeat split; discriminate.
  - reflexivity.
  - reflexivity.
  - reflexivity.
  - reflexivity.
Defined.

(** ** The exception codes that can be sent *)

Lemma bind_Some {A B} (m : M A) (k : A → M B) rm b rm2 e :
  bind m k rm = Some (b, rm2, e) →
  ∃ a rm1 e1 e2,
    m rm = Some (a, rm1, e1) ∧ k a rm1 = Some (b, rm2, e2) ∧ e = e1 ++ e2.
Proof.
  unfold bind. intros H.
  destruct (m rm) as [[[a rm1] e1]|] eqn:Hm; [|discriminate].
  destruct (k a rm1) as [[[b' rm2'] e2]|] eqn:Hk; [|discriminate].
  injection H as <- <- <-. exists a, rm1, e1, e2. split_and!; [reflexivity | exact Hk | reflexivity].
Qed.

(** The handlers return 0 whenever they return. *)
Lemma read_reg_returns_0 a rm x rm' e :
  read_reg a rm = Some (x, rm', e) → x.1 = 0 ∧ rm' = rm ∧ e = [RegRead a].
Proof.
  unfold read_reg. intros H.
  destruct (a <? 0); [discriminate|].
  destruct (rm !! Z.to_nat a); [|discriminate].
  injection H as <- <- <-. repeat split.
Qed.

Lemma write_reg_returns_0 a v rm rc rm' e :
  write_reg a v rm = Some (rc, rm', e) →
  rc = 0 ∧ rm' = <[Z.to_nat a := v]> rm ∧ e = [RegWrite a v].
Proof.
  unfold write_reg. intros H.
  destruct ((0 <=? a) && (Z.to_nat a <? length rm)%nat); [|discriminate].
  injection H as <- <- <-. repeat split.
Qed.

(** Within the bounds the handlers do return. *)
Lemma read_reg_defined a rm :
  wf_reg_map rm → 0 <= a < MAX_REG →
  ∃ v, rm !! Z.to_nat a = Some v ∧ read_reg a rm = Some ((0, v), rm, [RegRead a]).
Proof.
  intros Hwf [Ha0 Ha].
  assert (Hlen : (Z.to_nat a < length rm)%nat).
  { rewrite Hwf. apply Z2Nat.inj_lt; [exact Ha0 | discriminate | exact Ha]. }
  destruct (lookup_lt_is_Some_2 rm _ Hlen) as [v Hv]. exists v. split; [exact Hv|].
  unfold read_reg. assert ((a <? 0) = false) as -> by (apply Z.ltb_ge; exact Ha0).
  rewrite Hv. reflexivity.
Qed.

Lemma write_reg_defined a v rm :
  wf_reg_map rm → 0 <= a < MAX_REG →
  write_reg a v rm = Some (0, <[Z.to_nat a := v]> rm, [RegWrite a v]).
Proof.
  intros Hwf [Ha0 Ha].
  assert (Hlen : (Z.to_nat a < length rm)%nat).
  { rewrite Hwf. apply Z2Nat.inj_lt; [exact Ha0 | discriminate | exact Ha]. }
  unfold write_reg. assert ((0 <=? a) = true) as -> by (apply Z.leb_le; exact Ha0).
  assert ((Z.to_nat a <? length rm)%nat = true) as -> by (apply Nat.ltb_lt; exact Hlen).
  reflexivity.
Qed.

(** The switch leaves one of three exception codes and sends nothing. *)
Lemma perform_codes op a v mb rm c m rm' e :
  perform op a v mb rm = Some ((c, m), rm', e) →
  (c = 0 ∨ c = MODBUS_EXCEPTION_ILLEGAL_FUNCTION
   ∨ c = MODBUS_EXCEPTION_ILLEGAL_DATA_ADDRESS) ∧
  Forall (λ x, is_reply x = false) e.
Proof.
  rewrite perform_cases. intros H.
  destruct ((op =? 3) || (op =? 4)).
  - destruct (a <? MAX_REG).
    + apply bind_Some in H as ([rc x] & rm1 & e1 & e2 & Hr & Hk & ->).
      apply read_reg_returns_0 in Hr as (Hrc & -> & ->). cbn in Hrc. subst rc.
      cbn [Z.eqb negb] in Hk.
      apply bind_Some in Hk as (m' & rm2 & e3 & e4 & Hl & Hret & ->).
      unfold lift in Hl. destruct (set_tab_register mb a x); [|discriminate].
      injection Hl as <- <- <-. injection Hret as <- <- <- <-.
      split; [left; reflexivity | repeat constructor].
    + injection H as <- <- <- <-. split; [right; right; reflexivity | constructor].
  - destruct (op =? 6).
    + destruct (a <? MAX_REG).
      * apply bind_Some in H as (rc & rm1 & e1 & e2 & Hw & Hk & ->).
        apply write_reg_returns_0 in Hw as (-> & -> & ->).
        cbn [Z.eqb negb] in Hk. injection Hk as <- <- <- <-.
        split; [left; reflexivity | repeat constructor].
      * injection H as <- <- <- <-. split; [right; right; reflexivity | constructor].
    + injection H as <- <- <- <-. split; [right; left; reflexivity | repeat constructor].
Qed.

Lemma send_reply_effects own ev q c mb rm u rm' e :
  send_reply own ev q c mb rm = Some (u, rm', e) →
  rm' = rm ∧
  e = (if c =? 0 then ModbusReply q mb else ModbusReplyException q c)
        :: reply_failure_log own ev c.
Proof.
  unfold send_reply, reply_failure_log, bind, emit, ret.
  destruct (c =? 0); destruct (reply_rc ev =? -1); intros H;
    injection H as <- <- <-; split; reflexivity.
Qed.

Lemma reply_failure_log_no_reply own ev c :
  Forall (λ x, is_reply x = false) (reply_failure_log own ev c).
Proof. unfold reply_failure_log. destruct (reply_rc ev =? -1); repeat constructor. Qed.

(** Every exception reply of a request carries Illegal Function or
    Illegal Data Address. *)
Lemma handle_request_codes own hl ev q rm st rm' e :
  handle_request own hl ev q rm = Some (st, rm', e) →
  ∀ q' c, ModbusReplyException q' c ∈ e →
    c = MODBUS_EXCEPTION_ILLEGAL_FUNCTION ∨ c = MODBUS_EXCEPTION_ILLEGAL_DATA_ADDRESS.
Proof.
  unfold handle_request. intros H q' c Hin.
  apply bind_Some in H as (r & rm1 & e1 & e2 & Hl & Hk & ->).
  unfold lift in Hl. destruct (request_at hl q) as [r0|]; [|discriminate].
  injection Hl as -> <- <-. cbn [app] in Hin.
  destruct (negb (uint8 (slave_addr r) =? own)).
  { injection Hk as <- <- <-. apply elem_of_nil in Hin. contradiction. }
  destruct (modbus_mapping_new (mapping_alloc ev) 0 0 MAX_REG 0) as [mb|].
  - apply bind_Some in Hk as ([c' m] & rm2 & e3 & e4 & Hp & Hs & ->).
    apply perform_codes in Hp as [Hc He3].
    apply bind_Some in Hs as (u & rm3 & e5 & e6 & Hs & Hret & ->).
    apply send_reply_effects in Hs as [-> ->]. injection Hret as <- <- <-.
    rewrite !elem_of_app in Hin. destruct Hin as [Hin | [Hin | Hin]].
    + rewrite Forall_forall in He3. apply He3 in Hin. discriminate Hin.
    + apply elem_of_cons in Hin as [Hin | Hin].
      * destruct (c' =? 0) eqn:Hz; [discriminate Hin|].
        injection Hin as _ ->. apply Z.eqb_neq in Hz.
        destruct Hc as [Hc | Hc]; [contradiction | exact Hc].
      * pose proof (reply_failure_log_no_reply own ev c') as Hlog.
        rewrite Forall_forall in Hlog. apply Hlog in Hin. discriminate Hin.
    + apply elem_of_nil in Hin. contradiction.
  - apply bind_Some in Hk as (u & rm2 & e3 & e4 & He & Hret & ->).
    injection He as <- <- <-. injection Hret as <- <- <-.
    apply list_elem_of_singleton in Hin. discriminate Hin.
Qed.

Lemma main_loop_codes own hl rc events :
  ∀ rm st rm' e,
    main_loop own hl rc events rm = Some (st, rm', e) →
    ∀ q c, ModbusReplyException q c ∈ e →
      c = MODBUS_EXCEPTION_ILLEGAL_FUNCTION ∨ c = MODBUS_EXCEPTION_ILLEGAL_DATA_ADDRESS.
Proof.
  induction events as [|ev rest IH]; intros rm st rm' e H q c Hin.
  - injection H as <- <- <-. apply elem_of_nil in Hin. contradiction.
  - cbn [main_loop] in H. change (cont =? 0) with false in H. cbv iota in H.
    apply bind_Some in H as (s & rm1 & e1 & e2 & Ht & Hk & ->).
    apply elem_of_app in Hin as [Hin | Hin].
    + unfold loop_turn in Ht. destruct (received ev) as [q0|].
      * exact (handle_request_codes own hl ev q0 rm s rm1 e1 Ht q c Hin).
      * injection Ht as <- <- <-. apply list_elem_of_singleton in Hin. discriminate Hin.
    + destruct s as [|r].
      * exact (IH rm1 st rm' e2 Hk q c Hin).
      * injection Hk as <- <- <-. apply elem_of_nil in Hin. contradiction.
Qed.

(** ** The loop never leaves the register map *)

Lemma handle_request_write own hl ev q r rm :
  wf_reg_map rm →
  request_at hl q = Some r →
  addressed own r →
  mapping_alloc ev = true →
  operation_of r = 6 →
  reg_addr_of r < MAX_REG →
  handle_request own hl ev q rm =
    Some (Continue, <[Z.to_nat (reg_addr_of r) := reg_val_of r]> rm,
          RegWrite (reg_addr_of r) (reg_val_of r)
            :: ModbusReply q fresh_mapping :: reply_failure_log own ev 0).
Proof.
  intros Hwf Hq Hown Halloc Hop Ha.
  pose proof (reg_addr_of_range r) as [Ha0 _].
  rewrite (handle_request_addressed own hl ev q r rm Hq Hown Halloc), Hop.
  assert (Hlen : (Z.to_nat (reg_addr_of r) < length rm)%nat).
  { rewrite Hwf. apply Z2Nat.inj_lt; [exact Ha0 | discriminate | exact Ha]. }
  unfold bind at 1. rewrite (perform_write _ _ _ rm (conj Ha0 Ha) Hlen).
  unfold bind at 1. rewrite send_reply_normal. run_to_end.
Qed.

Lemma handle_request_out_of_range own hl ev q r rm :
  request_at hl q = Some r →
  addressed own r →
  mapping_alloc ev = true →
  operation_of r = 3 ∨ operation_of r = 4 ∨ operation_of r = 6 →
  MAX_REG <= reg_addr_of r →
  handle_request own hl ev q rm =
    Some (Continue, rm,
          ModbusReplyException q MODBUS_EXCEPTION_ILLEGAL_DATA_ADDRESS
            :: reply_failure_log own ev MODBUS_EXCEPTION_ILLEGAL_DATA_ADDRESS).
Proof.
  intros Hq Hown Halloc Hop Ha.
  rewrite (handle_request_addressed own hl ev q r rm Hq Hown Halloc).
  unfold bind at 1. rewrite perform_out_of_range by assumption.
  unfold bind at 1. rewrite send_reply_exception by discriminate. run_to_end.
Qed.

Lemma handle_request_unsupported own hl ev q r rm :
  request_at hl q = Some r →
  addressed own r →
  mapping_alloc ev = true →
  operation_of r ≠ 3 → operation_of r ≠ 4 → operation_of r ≠ 6 →
  handle_request own hl ev q rm =
    Some (Continue, rm,
          Syslog (LogInvalidOperation (operation_of r))
            :: ModbusReplyException q MODBUS_EXCEPTION_ILLEGAL_FUNCTION
            :: reply_failure_log own ev MODBUS_EXCEPTION_ILLEGAL_FUNCTION).
Proof.
  intros Hq Hown Halloc H3 H4 H6.
  rewrite (handle_request_addressed own hl ev q r rm Hq Hown Halloc).
  unfold bind at 1. rewrite perform_unsupported by assumption.
  unfold bind at 1. rewrite send_reply_exception by discriminate. run_to_end.
Qed.

(** Every decoded request is handled without an access outside the
    register map, and leaves a register map of the declared size. *)
Lemma handle_request_defined own hl ev q r rm :
  wf_reg_map rm →
  request_at hl q = Some r →
  ∃ st rm' e, handle_request own hl ev q rm = Some (st, rm', e) ∧ wf_reg_map rm'.
Proof.
  intros Hwf Hq.
  destruct (Z.eq_dec (uint8 (slave_addr r)) own) as [Hown | Hown];
    [| eexists _, _, _; split;
       [exact (handle_request_unaddressed own hl ev q r rm Hq Hown) | exact Hwf]].
  destruct (mapping_alloc ev) eqn:Halloc;
    [| eexists _, _, _; split;
       [exact (handle_request_no_mapping own hl ev q r rm Hq Hown Halloc) | exact Hwf]].
  destruct (Z_lt_le_dec (reg_addr_of r) MAX_REG) as [Ha | Ha].
  - destruct (Z.eq_dec (operation_of r) 3) as [H3 | H3].
    { destruct (handle_request_read own hl ev q r rm Hwf Hq Hown Halloc
                  (or_introl H3) Ha) as (v & _ & Hrun).
      eexists _, _, _; split; [exact Hrun | exact Hwf]. }
    destruct (Z.eq_dec (operation_of r) 4) as [H4 | H4].
    { destruct (handle_request_read own hl ev q r rm Hwf Hq Hown Halloc
                  (or_intror H4) Ha) as (v & _ & Hrun).
      eexists _, _, _; split; [exact Hrun | exact Hwf]. }
    destruct (Z.eq_dec (operation_of r) 6) as [H6 | H6].
    { eexists _, _, _; split;
        [exact (handle_request_write own hl ev q r rm Hwf Hq Hown Halloc H6 Ha) |].
      unfold wf_reg_map. rewrite length_insert. exact Hwf. }
    eexists _, _, _; split;
      [exact (handle_request_unsupported own hl ev q r rm Hq Hown Halloc H3 H4 H6)
      | exact Hwf].
  - destruct (Z.eq_dec (operation_of r) 3) as [H3 | H3].
    { eexists _, _, _; split;
        [exact (handle_request_out_of_range own hl ev q r rm Hq Hown Halloc
                  (or_introl H3) Ha) | exact Hwf]. }
    destruct (Z.eq_dec (operation_of r) 4) as [H4 | H4].
    { eexists _, _, _; split;
        [exact (handle_request_out_of_range own hl ev q r rm Hq Hown Halloc
                  (or_intror (or_introl H4)) Ha) | exact Hwf]. }
    destruct (Z.eq_dec (operation_of r) 6) as [H6 | H6].
    { eexists _, _, _; split;
        [exact (handle_request_out_of_range own hl ev q r rm Hq Hown Halloc
                  (or_intror (or_intror H6)) Ha) | exact Hwf]. }
    eexists _, _, _; split;
      [exact (handle_request_unsupported own hl ev q r rm Hq Hown Halloc H3 H4 H6)
      | exact Hwf].
Qed.

Lemma main_loop_defined own hl rc events :
  ∀ rm,
    wf_reg_map rm →
    Forall (decodable hl) events →
    ∃ st rm' e, main_loop own hl rc events rm = Some (st, rm', e) ∧ wf_reg_map rm'.
Proof.
  induction events as [|ev rest IH]; intros rm Hwf Hdec.
  - exists Continue, rm, []. split; [reflexivity | exact Hwf].
  - apply Forall_cons in Hdec as [Hev Hrest].
    cbn [main_loop]. change (cont =? 0) with false. cbv iota.
    assert (Hturn : ∃ st rm1 e1,
               loop_turn own hl ev rm = Some (st, rm1, e1) ∧ wf_reg_map rm1).
    { unfold loop_turn. destruct (received ev) as [q|] eqn:Hrecv.
      - destruct (Hev q Hrecv) as [r Hr].
        exact (handle_request_defined own hl ev q r rm Hwf Hr).
      - exists Continue, rm, [Syslog (LogReceiveFailed own)].
        split; [reflexivity | exact Hwf]. }
    destruct Hturn as (st & rm1 & e1 & Hturn & Hwf1).
    unfold bind. rewrite Hturn. destruct st as [|r].
    + destruct (IH rm1 Hwf1 Hrest) as (st' & rm' & e' & Hrun & Hwf').
      rewrite Hrun. eexists _, _, _; split; [reflexivity | exact Hwf'].
    + eexists _, _, _; split; [reflexivity | exact Hwf1].
Qed.

(** ** Slave or Server Failure *)

(** C9. The handlers [read_reg] and [write_reg] return 0 whenever they are
    called within the bounds of the register map, and they are called
    nowhere else; so, over any sequence of turns of the main loop, the
    loop runs without leaving the register map and no exception reply
    carries the code Slave or Server Failure (0x04). *)
Theorem C9_slave_failure_is_never_sent own hl rc events rm :
  wf_reg_map rm →
  Forall (decodable hl) events →
  ∃ st rm' effects,
    main_loop own hl rc events rm = Some (st, rm', effects) ∧
    (∀ q, ModbusReplyException q MODBUS_EXCEPTION_SLAVE_OR_SERVER_FAILURE ∉ effects) ∧
    MODBUS_EXCEPTION_SLAVE_OR_SERVER_FAILURE = 0x04 ∧
    (∀ a map, wf_reg_map map → 0 <= a < MAX_REG →
       ∃ v, read_reg a map = Some ((0, v), map, [RegRead a])) ∧
    (∀ a v map, wf_reg_map map → 0 <= a < MAX_REG →
       ∃ map', write_reg a v map = Some (0, map', [RegWrite a v])) ∧
    (∀ a map x map' e, read_reg a map = Some (x, map', e) → x.1 = 0) ∧
    (∀ a v map x map' e, write_reg a v map = Some (x, map', e) → x = 0).
Proof.
  intros Hwf Hdec.
  destruct (main_loop_defined own hl rc events rm Hwf Hdec) as (st & rm' & e & Hrun & _).
  exists st, rm', e. split_and!.
  - exact Hrun.
  - intros q Hin.
    destruct (main_loop_codes own hl rc events rm st rm' e Hrun q _ Hin); discriminate.
  - reflexivity.
  - intros a map Hm Ha. destruct (read_reg_defined a map Hm Ha) as (v & _ & Hr).
    exists v. exact Hr.
  - intros a v map Hm Ha. eexists. exact (write_reg_defined a v map Hm Ha).
  - intros a map x map' e' Hr. apply read_reg_returns_0 in Hr as [Hx _]. exact Hx.
  - intros a v map x map' e' Hw. apply write_reg_returns_0 in Hw as [Hx _]. exact Hx.
Qed.

(** The five scenarios in a row. *)
Lemma C9_scenarios_witness :
  ∃ st rm' effects,
    main_loop 5 1 0
      [served frame_A; served frame_B; served frame_C; served frame_D; served frame_E]
      reg_map0 = Some (st, rm', effects) ∧
    (∀ q, ModbusReplyException q MODBUS_EXCEPTION_SLAVE_OR_SERVER_FAILURE ∉ effects) ∧
    MODBUS_EXCEPTION_SLAVE_OR_SERVER_FAILURE = 0x04 ∧
    (∀ a map, wf_reg_map map → 0 <= a < MAX_REG →
       ∃ v, read_reg a map = Some ((0, v), map, [RegRead a])) ∧
    (∀ a v map, wf_reg_map map → 0 <= a < MAX_REG →
       ∃ map', write_reg a v map = Some (0, map', [RegWrite a v])) ∧
    (∀ a map x map' e, read_reg a map = Some (x, map', e) → x.1 = 0) ∧
    (∀ a v map x map' e, write_reg a v map = Some (x, map', e) → x = 0).
Proof.
  apply (C9_slave_failure_is_never_sent 5 1 0
           [served frame_A; served frame_B; served frame_C; served frame_D; served frame_E]
           reg_map0).
  - reflexivity.
  - repeat constructor; intros q Hq; injection Hq as <-; eexists; reflexivity.
Defined.

(** ** The two read function codes *)

(** C8. Read Holding Registers (0x03) and Read Input Registers (0x04)
    are handled alike: two addressed requests that differ in nothing but
    that function code end the turn in the same way, leave the same
    register map and have the same effects, but for the frame handed on
    to the reply functions: the same bounds check, the same read of the
    one register map, the same response structure with the same payload
    register, or the same exception code. *)
Theorem C8_read_holding_and_read_input_agree own hl ev q3 q4 r3 r4 rm :
  wf_reg_map rm →
  request_at hl q3 = Some r3 →
  request_at hl q4 = Some r4 →
  addressed own r3 →
  operation_of r3 = 3 →
  operation_of r4 = 4 →
  agree_but_function r3 r4 →
  ∃ st rm' e3 e4,
    handle_request own hl ev q3 rm = Some (st, rm', e3) ∧
    handle_request own hl ev q4 rm = Some (st, rm', e4) ∧
    erase_query <$> e3 = erase_query <$> e4.
Proof.
  intros Hwf Hq3 Hq4 Hown3 Hop3 Hop4 (Hs & Hah & Hal & Hvh & Hvl).
  assert (Hown4 : addressed own r4) by (unfold addressed in *; rewrite Hs; exact Hown3).
  assert (Ha : reg_addr_of r4 = reg_addr_of r3)
    by (unfold reg_addr_of; rewrite Hah, Hal; reflexivity).
  destruct (mapping_alloc ev) eqn:Halloc.
  - destruct (Z_lt_le_dec (reg_addr_of r3) MAX_REG) as [Hlt | Hge].
    + destruct (handle_request_read own hl ev q3 r3 rm Hwf Hq3 Hown3 Halloc
                  (or_introl Hop3) Hlt) as (v3 & Hv3 & Hrun3).
      assert (Hlt4 : reg_addr_of r4 < MAX_REG) by (rewrite Ha; exact Hlt).
      destruct (handle_request_read own hl ev q4 r4 rm Hwf Hq4 Hown4 Halloc
                  (or_intror Hop4) Hlt4) as (v4 & Hv4 & Hrun4).
      rewrite Ha in Hv4, Hrun4. rewrite Hv3 in Hv4. injection Hv4 as <-.
      eexists _, _, _, _. split_and!; [exact Hrun3 | exact Hrun4 | reflexivity].
    + assert (Hge4 : MAX_REG <= reg_addr_of r4) by (rewrite Ha; exact Hge).
      eexists _, _, _, _. split_and!.
      * exact (handle_request_out_of_range own hl ev q3 r3 rm Hq3 Hown3 Halloc
                 (or_introl Hop3) Hge).
      * exact (handle_request_out_of_range own hl ev q4 r4 rm Hq4 Hown4 Halloc
                 (or_intror (or_introl Hop4)) Hge4).
      * reflexivity.
  - eexists _, _, _, _. split_and!.
    + exact (handle_request_no_mapping own hl ev q3 r3 rm Hq3 Hown3 Halloc).
    + exact (handle_request_no_mapping own hl ev q4 r4 rm Hq4 Hown4 Halloc).
    + reflexivity.
Qed.

(** Register 10 read with 0x03 and with 0x04. *)
Lemma C8_read_input_witness :
  ∃ st rm' e3 e4,
    handle_request 5 1 (served frame_B) frame_B (<[10%nat := 1234]> reg_map0) =
      Some (st, rm', e3) ∧
    handle_request 5 1 (served frame_B) frame_read_input (<[10%nat := 1234]> reg_map0) =
      Some (st, rm', e4) ∧
    erase_query <$> e3 = erase_query <$> e4.
Proof.
  apply (C8_read_holding_and_read_input_agree 5 1 (served frame_B)
           frame_B frame_read_input
           {| slave_addr := x05; fc := x03; reg_addr_hi := x00; reg_addr_lo := x0a;
              reg_val_hi := x00; reg_val_lo := x01 |}
           {| slave_addr := x05; fc := x04; reg_addr_hi := x00; reg_addr_lo := x0a;
              reg_val_hi := x00; reg_val_lo := x01 |}
           (<[10%nat := 1234]> reg_map0)).
  - reflexivity.
  - reflexivity.
  - reflexivity.
  - reflexivity.
  - reflexivity.
  - reflexivity.
  - repeat split.
Defined.

(** ** The count field *)

(** C10. For an addressed read (0x03 or 0x04) the dispatcher compares the
    start register address with [MAX_REG] and nothing else: two such
    requests that differ only in the count field end the turn in the same
    way with the same effects (but for the frame handed on).  With the
    start address below [MAX_REG] the read path is taken for every count
    (one access to the register map, a normal reply, no exception);
    otherwise the answer is Illegal Data Address for every count. *)
Theorem C10_count_does_not_influence_dispatch own hl ev q1 q2 r1 r2 rm :
  wf_reg_map rm →
  request_at hl q1 = Some r1 →
  request_at hl q2 = Some r2 →
  addressed own r1 →
  mapping_alloc ev = true →
  operation_of r1 = 3 ∨ operation_of r1 = 4 →
  agree_but_count r1 r2 →
  ∃ e1 e2,
    handle_request own hl ev q1 rm = Some (Continue, rm, e1) ∧
    handle_request own hl ev q2 rm = Some (Continue, rm, e2) ∧
    erase_query <$> e1 = erase_query <$> e2 ∧
    (reg_addr_of r1 < MAX_REG →
       ∃ v, rm !! Z.to_nat (reg_addr_of r1) = Some v ∧
         e1 = RegRead (reg_addr_of r1)
                :: ModbusReply q1 (read_mapping (reg_addr_of r1) v)
                :: reply_failure_log own ev 0 ∧
         e2 = RegRead (reg_addr_of r1)
                :: ModbusReply q2 (read_mapping (reg_addr_of r1) v)
                :: reply_failure_log own ev 0) ∧
    (MAX_REG <= reg_addr_of r1 →
       e1 = ModbusReplyException q1 MODBUS_EXCEPTION_ILLEGAL_DATA_ADDRESS
              :: reply_failure_log own ev MODBUS_EXCEPTION_ILLEGAL_DATA_ADDRESS ∧
       e2 = ModbusReplyException q2 MODBUS_EXCEPTION_ILLEGAL_DATA_ADDRESS
              :: reply_failure_log own ev MODBUS_EXCEPTION_ILLEGAL_DATA_ADDRESS).
Proof.
  intros Hwf Hq1 Hq2 Hown1 Halloc Hop1 (Hs & Hf & Hah & Hal).
  assert (Hown2 : addressed own r2) by (unfold addressed in *; rewrite Hs; exact Hown1).
  assert (Ha : reg_addr_of r2 = reg_addr_of r1)
    by (unfold reg_addr_of; rewrite Hah, Hal; reflexivity).
  assert (Hop2 : operation_of r2 = 3 ∨ operation_of r2 = 4)
    by (unfold operation_of in *; rewrite Hf; exact Hop1).
  destruct (Z_lt_le_dec (reg_addr_of r1) MAX_REG) as [Hlt | Hge].
  - destruct (handle_request_read own hl ev q1 r1 rm Hwf Hq1 Hown1 Halloc Hop1 Hlt)
      as (v1 & Hv1 & Hrun1).
    assert (Hlt2 : reg_addr_of r2 < MAX_REG) by (rewrite Ha; exact Hlt).
    destruct (handle_request_read own hl ev q2 r2 rm Hwf Hq2 Hown2 Halloc Hop2 Hlt2)
      as (v2 & Hv2 & Hrun2).
    rewrite Ha in Hv2, Hrun2. rewrite Hv1 in Hv2. injection Hv2 as <-.
    eexists _, _. split_and!; [exact Hrun1 | exact Hrun2 | reflexivity | |].
    + intros _. exists v1. split_and!; [exact Hv1 | reflexivity | reflexivity].
    + intros Hge. lia.
  - assert (Hge2 : MAX_REG <= reg_addr_of r2) by (rewrite Ha; exact Hge).
    eexists _, _. split_and!.
    + apply (handle_request_out_of_range own hl ev q1 r1 rm Hq1 Hown1 Halloc); [|exact Hge].
      destruct Hop1 as [H | H]; [left | right; left]; exact H.
    + apply (handle_request_out_of_range own hl ev q2 r2 rm Hq2 Hown2 Halloc); [|exact Hge2].
      destruct Hop2 as [H | H]; [left | right; left]; exact H.
    + reflexivity.
    + intros Hlt. lia.
    + intros _. split; reflexivity.
Qed.

(** Register 31 read with count 1 and with count 5: the second request
    reaches past the last register and is dispatched to the read path all
    the same. *)
Lemma C10_past_the_end_witness :
  ∃ e1 e2,
    handle_request 5 1 (served frame_last_register) frame_last_register reg_map0 =
      Some (Continue, reg_map0, e1) ∧
    handle_request 5 1 (served frame_last_register) frame_past_the_end reg_map0 =
      Some (Continue, reg_map0, e2) ∧
    erase_query <$> e1 = erase_query <$> e2 ∧
    (31 < MAX_REG →
       ∃ v, reg_map0 !! 31%nat = Some v ∧
         e1 = [RegRead 31; ModbusReply frame_last_register (read_mapping 31 v)] ∧
         e2 = [RegRead 31; ModbusReply frame_past_the_end (read_mapping 31 v)]) ∧
    (MAX_REG <= 31 →
       e1 = [ModbusReplyException frame_last_register 2] ∧
       e2 = [ModbusReplyException frame_past_the_end 2]).
Proof.
  apply (C10_count_does_not_influence_dispatch 5 1 (served frame_last_register)
           frame_last_register frame_past_the_end
           {| slave_addr := x05; fc := x03; reg_addr_hi := x00; reg_addr_lo := x1f;
              reg_val_hi := x00; reg_val_lo := x01 |}
           {| slave_addr := x05; fc := x03; reg_addr_hi := x00; reg_addr_lo := x1f;
              reg_val_hi := x00; reg_val_lo := x05 |}
           reg_map0).
  - reflexivity.
  - reflexivity.
  - reflexivity.
  - reflexivity.
  - reflexivity.
  - left. reflexivity.
  - repeat split.
Defined.

(** ** The scenarios of section 8, one after the other *)

(** Scenarios A to E in a row, from the zeroed register map: the write
    of A is seen by the read of B, C and E are answered by exceptions, D
    is not answered at all, and register 10 is the only one changed. *)
Example scenarios_A_to_E :
  main good_startup
    [served frame_A; served frame_B; served frame_C; served frame_D; served frame_E]
    reg_map0 =
  Some (Continue, <[10%nat := 1234]> reg_map0,
        [RegWrite 10 1234; ModbusReply frame_A fresh_mapping;
         RegRead 10; ModbusReply frame_B (read_mapping 10 1234);
         ModbusReplyException frame_C 2;
         Syslog (LogInvalidOperation 7); ModbusReplyException frame_E 1]) ∧
  modbus_reply 1 frame_A fresh_mapping = Some (WriteReply 5 0x06 10 1234) ∧
  modbus_reply 1 frame_B (read_mapping 10 1234) = Some (ReadReply 5 0x03 [1234]) ∧
  modbus_reply_exception 1 frame_C 2 = Some (ExceptionReply 5 0x83 0x02) ∧
  modbus_reply_exception 1 frame_E 1 = Some (ExceptionReply 5 0x87 0x01).
Proof. split_and!; reflexivity. Qed.

(** ** One turn, read backwards *)

Lemma handle_request_undecoded own hl ev q rm :
  request_at hl q = None → handle_request own hl ev q rm = None.
Proof. intros H. unfold handle_request, bind, lift. rewrite H. reflexivity. Qed.

Lemma handle_request_read_at own hl ev q r rm v :
  request_at hl q = Some r →
  addressed own r →
  mapping_alloc ev = true →
  operation_of r = 3 ∨ operation_of r = 4 →
  reg_addr_of r < MAX_REG →
  rm !! Z.to_nat (reg_addr_of r) = Some v →
  handle_request own hl ev q rm =
    Some (Continue, rm,
          RegRead (reg_addr_of r)
            :: ModbusReply q (read_mapping (reg_addr_of r) v)
            :: reply_failure_log own ev 0).
Proof.
  intros Hq Hown Halloc Hop Ha Hv.
  pose proof (reg_addr_of_range r) as [Ha0 _].
  rewrite (handle_request_addressed own hl ev q r rm Hq Hown Halloc).
  unfold bind at 1.
  rewrite (perform_read _ _ _ fresh_mapping rm v Hop (conj Ha0 Ha) Hv)
    by (cbn [fresh_mapping tab_registers]; rewrite length_replicate;
        apply Z2Nat.inj_lt; [exact Ha0 | discriminate | exact Ha]).
  unfold bind at 1. rewrite send_reply_normal. run_to_end.
Qed.

Lemma handle_request_read_undefined own hl ev q r rm :
  request_at hl q = Some r →
  addressed own r →
  mapping_alloc ev = true →
  operation_of r = 3 ∨ operation_of r = 4 →
  reg_addr_of r < MAX_REG →
  rm !! Z.to_nat (reg_addr_of r) = None →
  handle_request own hl ev q rm = None.
Proof.
  intros Hq Hown Halloc Hop Ha Hv.
  pose proof (reg_addr_of_range r) as [Ha0 _].
  rewrite (handle_request_addressed own hl ev q r rm Hq Hown Halloc).
  unfold bind at 1. rewrite perform_cases.
  assert (((operation_of r =? 3) || (operation_of r =? 4)) = true) as ->
    by (destruct Hop as [-> | ->]; reflexivity).
  assert ((reg_addr_of r <? MAX_REG) = true) as -> by (apply Z.ltb_lt; exact Ha).
  unfold bind at 1, read_reg.
  assert ((reg_addr_of r <? 0) = false) as -> by (apply Z.ltb_ge; exact Ha0).
  rewrite Hv. reflexivity.
Qed.

Lemma handle_request_write_at own hl ev q r rm :
  request_at hl q = Some r →
  addressed own r →
  mapping_alloc ev = true →
  operation_of r = 6 →
  reg_addr_of r < MAX_REG →
  (Z.to_nat (reg_addr_of r) < length rm)%nat →
  handle_request own hl ev q rm =
    Some (Continue, <[Z.to_nat (reg_addr_of r) := reg_val_of r]> rm,
          RegWrite (reg_addr_of r) (reg_val_of r)
            :: ModbusReply q fresh_mapping :: reply_failure_log own ev 0).
Proof.
  intros Hq Hown Halloc Hop Ha Hlen.
  pose proof (reg_addr_of_range r) as [Ha0 _].
  rewrite (handle_request_addressed own hl ev q r rm Hq Hown Halloc), Hop.
  unfold bind at 1. rewrite (perform_write _ _ _ rm (conj Ha0 Ha) Hlen).
  unfold bind at 1. rewrite send_reply_normal. run_to_end.
Qed.

Lemma handle_request_write_undefined own hl ev q r rm :
  request_at hl q = Some r →
  addressed own r →
  mapping_alloc ev = true →
  operation_of r = 6 →
  reg_addr_of r < MAX_REG →
  (length rm <= Z.to_nat (reg_addr_of r))%nat →
  handle_request own hl ev q rm = None.
Proof.
  intros Hq Hown Halloc Hop Ha Hlen.
  rewrite (handle_request_addressed own hl ev q r rm Hq Hown Halloc), Hop.
  unfold bind at 1. rewrite perform_cases. cbn [Z.eqb Pos.eqb orb].
  assert ((reg_addr_of r <? MAX_REG) = true) as -> by (apply Z.ltb_lt; exact Ha).
  unfold bind at 1, write_reg.
  assert ((Z.to_nat (reg_addr_of r) <? length rm)%nat = false) as ->
    by (apply Nat.ltb_ge; exact Hlen).
  rewrite andb_false_r. reflexivity.
Qed.

(** Every way a request is handled is one of the six of [handled]. *)
Lemma handle_request_inv own hl ev q rm st rm' e :
  handle_request own hl ev q rm = Some (st, rm', e) →
  ∃ r, request_at hl q = Some r ∧ handled own ev q r rm st rm' e.
Proof.
  intros H.
  destruct (request_at hl q) as [r|] eqn:Hq;
    [| rewrite (handle_request_undecoded own hl ev q rm Hq) in H; discriminate H].
  exists r. split; [reflexivity|].
  destruct (Z.eq_dec (uint8 (slave_addr r)) own) as [Hown | Hown].
  2: { rewrite (handle_request_unaddressed own hl ev q r rm Hq Hown) in H.
       injection H as <- <- <-. constructor. exact Hown. }
  destruct (mapping_alloc ev) eqn:Halloc.
  2: { rewrite (handle_request_no_mapping own hl ev q r rm Hq Hown Halloc) in H.
       injection H as <- <- <-. constructor; assumption. }
  assert (Hcases : (operation_of r = 3 ∨ operation_of r = 4) ∨ operation_of r = 6
                   ∨ (operation_of r ≠ 3 ∧ operation_of r ≠ 4 ∧ operation_of r ≠ 6)) by lia.
  destruct Hcases as [Hop | [Hop | (H3 & H4 & H6)]].
  - destruct (Z_lt_le_dec (reg_addr_of r) MAX_REG) as [Ha | Ha].
    + destruct (rm !! Z.to_nat (reg_addr_of r)) as [v|] eqn:Hv.
      * rewrite (handle_request_read_at own hl ev q r rm v Hq Hown Halloc Hop Ha Hv) in H.
        injection H as <- <- <-. apply handled_read; assumption.
      * rewrite (handle_request_read_undefined own hl ev q r rm Hq Hown Halloc Hop Ha Hv) in H.
        discriminate H.
    + assert (Hop' : operation_of r = 3 ∨ operation_of r = 4 ∨ operation_of r = 6)
        by (destruct Hop; [left | right; left]; assumption).
      rewrite (handle_request_out_of_range own hl ev q r rm Hq Hown Halloc Hop' Ha) in H.
      injection H as <- <- <-. apply handled_out_of_range; assumption.
  - destruct (Z_lt_le_dec (reg_addr_of r) MAX_REG) as [Ha | Ha].
    + destruct (Nat.lt_ge_cases (Z.to_nat (reg_addr_of r)) (length rm)) as [Hlen | Hlen].
      * rewrite (handle_request_write_at own hl ev q r rm Hq Hown Halloc Hop Ha Hlen) in H.
        injection H as <- <- <-. apply handled_write; assumption.
      * rewrite (handle_request_write_undefined own hl ev q r rm Hq Hown Halloc Hop Ha Hlen) in H.
        discriminate H.
    + assert (Hop' : operation_of r = 3 ∨ operation_of r = 4 ∨ operation_of r = 6)
        by (right; right; assumption).
      rewrite (handle_request_out_of_range own hl ev q r rm Hq Hown Halloc Hop' Ha) in H.
      injection H as <- <- <-. apply handled_out_of_range; assumption.
  - rewrite (handle_request_unsupported own hl ev q r rm Hq Hown Halloc H3 H4 H6) in H.
    injection H as <- <- <-. apply handled_unsupported; assumption.
Qed.

(** One turn of the loop, read backwards. *)
Lemma main_loop_cons_inv own hl rc ev rest rm st rm' e :
  main_loop own hl rc (ev :: rest) rm = Some (st, rm', e) →
  ∃ s1 rm1 e1,
    loop_turn own hl ev rm = Some (s1, rm1, e1) ∧
    match s1 with
    | Continue => ∃ e2, main_loop own hl rc rest rm1 = Some (st, rm', e2) ∧ e = e1 ++ e2
    | Return r => st = Return r ∧ rm' = rm1 ∧ e = e1
    end.
Proof.
  cbn [main_loop]. change (cont =? 0) with false. cbv iota. intros H.
  apply bind_Some in H as (s1 & rm1 & e1 & e2 & Ht & Hk & ->).
  exists s1, rm1, e1. split; [exact Ht|].
  destruct s1 as [|r].
  - exists e2. split; [exact Hk | reflexivity].
  - injection Hk as <- <- <-. rewrite app_nil_r. repeat split.
Qed.

Lemma loop_turn_inv own hl ev rm st rm' e :
  loop_turn own hl ev rm = Some (st, rm', e) →
  (received ev = None ∧ st = Continue ∧ rm' = rm ∧ e = [Syslog (LogReceiveFailed own)]) ∨
  (∃ q r, received ev = Some q ∧ request_at hl q = Some r ∧
          handled own ev q r rm st rm' e).
Proof.
  unfold loop_turn. destruct (received ev) as [q|].
  - intros H. apply handle_request_inv in H as (r & Hq & Hh).
    right. exists q, r. repeat split; assumption.
  - intros H. injection H as <- <- <-. left. repeat split.
Qed.

(** ** Reads after writes *)

(** X1. A write of [v] to register [a] followed by a read of register
    [b], both addressed and within the register map: the read is
    answered with [v] if [b] is [a], and with what register [b] held
    before the write otherwise. *)
Theorem mbs_read_after_write own hl rc evw evr qw qr rw rr rm :
  wf_reg_map rm →
  received evw = Some qw → request_at hl qw = Some rw →
  received evr = Some qr → request_at hl qr = Some rr →
  addressed own rw → addressed own rr →
  mapping_alloc evw = true → mapping_alloc evr = true →
  operation_of rw = 6 →
  operation_of rr = 3 ∨ operation_of rr = 4 →
  reg_addr_of rw < MAX_REG →
  reg_addr_of rr < MAX_REG →
  ∃ old,
    rm !! Z.to_nat (reg_addr_of rr) = Some old ∧
    main_loop own hl rc [evw; evr] rm =
      Some (Continue, <[Z.to_nat (reg_addr_of rw) := reg_val_of rw]> rm,
            (RegWrite (reg_addr_of rw) (reg_val_of rw)
               :: ModbusReply qw fresh_mapping :: reply_failure_log own evw 0)
            ++ RegRead (reg_addr_of rr)
               :: ModbusReply qr
                    (read_mapping (reg_addr_of rr)
                       (if decide (reg_addr_of rr = reg_addr_of rw)
                        then reg_val_of rw else old))
               :: reply_failure_log own evr 0).
Proof.
  intros Hwf Hrw Hqw Hrr Hqr Hownw Hownr Hallocw Hallocr Hopw Hopr Haw Har.
  pose proof (reg_addr_of_range rw) as [Haw0 _].
  pose proof (reg_addr_of_range rr) as [Har0 _].
  assert (Hlenw : (Z.to_nat (reg_addr_of rw) < length rm)%nat).
  { rewrite Hwf. apply Z2Nat.inj_lt; [exact Haw0 | discriminate | exact Haw]. }
  assert (Hlenr : (Z.to_nat (reg_addr_of rr) < length rm)%nat).
  { rewrite Hwf. apply Z2Nat.inj_lt; [exact Har0 | discriminate | exact Har]. }
  destruct (lookup_lt_is_Some_2 rm _ Hlenr) as [old Hold].
  exists old. split; [exact Hold|].
  cbn [main_loop]. change (cont =? 0) with false. cbv iota.
  unfold bind at 1. unfold loop_turn at 1. rewrite Hrw.
  rewrite (handle_request_write_at own hl evw qw rw rm Hqw Hownw Hallocw Hopw Haw Hlenw).
  unfold bind at 1. unfold loop_turn at 1. rewrite Hrr.
  assert (Hv : <[Z.to_nat (reg_addr_of rw) := reg_val_of rw]> rm
                 !! Z.to_nat (reg_addr_of rr)
               = Some (if decide (reg_addr_of rr = reg_addr_of rw)
                       then reg_val_of rw else old)).
  { destruct (decide (reg_addr_of rr = reg_addr_of rw)) as [Heq | Hne].
    - rewrite Heq. apply list_lookup_insert_eq. exact Hlenw.
    - rewrite list_lookup_insert_ne; [exact Hold|].
      intros Heq. apply Hne. symmetry. apply Z2Nat.inj; assumption. }
  rewrite (handle_request_read_at own hl evr qr rr _ _ Hqr Hownr Hallocr Hopr Har Hv).
  unfold ret. rewrite app_nil_r. reflexivity.
Qed.

(** Scenario A followed by scenario B. *)
Lemma mbs_read_after_write_witness :
  ∃ old,
    reg_map0 !! 10%nat = Some old ∧
    main_loop 5 1 0 [served frame_A; served frame_B] reg_map0 =
      Some (Continue, <[10%nat := 1234]> reg_map0,
            [RegWrite 10 1234; ModbusReply frame_A fresh_mapping]
            ++ [RegRead 10; ModbusReply frame_B (read_mapping 10 1234)]).
Proof.
  apply (mbs_read_after_write 5 1 0 (served frame_A) (served frame_B) frame_A frame_B
           {| slave_addr := x05; fc := x06; reg_addr_hi := x00; reg_addr_lo := x0a;
              reg_val_hi := x04; reg_val_lo := xd2 |}
           {| slave_addr := x05; fc := x03; reg_addr_hi := x00; reg_addr_lo := x0a;
              reg_val_hi := x00; reg_val_lo := x01 |} reg_map0);
    first [reflexivity | left; reflexivity].
Defined.

(** ** What a run of the loop keeps *)

Lemma handled_register_kept own hl a ev q r rm st rm' e :
  0 <= a →
  received ev = Some q →
  request_at hl q = Some r →
  ¬ writes_to own hl a ev →
  handled own ev q r rm st rm' e →
  rm' !! Z.to_nat a = rm !! Z.to_nat a.
Proof.
  intros Ha Hrecv Hq Hnw Hh. destruct Hh; try reflexivity.
  apply list_lookup_insert_ne. intros Heq.
  apply Hnw. exists q, r. split_and!; try assumption.
  apply Z2Nat.inj; [apply reg_addr_of_range | exact Ha | exact Heq].
Qed.

(** X2. Over any run of the loop, a register keeps its value unless a
    turn of the run receives an addressed write-single-register request
    for its address: reads, rejected requests, frames for other
    responders and failed receives never change it. *)
Theorem mbs_register_kept own hl rc a events :
  0 <= a →
  Forall (λ ev, ¬ writes_to own hl a ev) events →
  ∀ rm st rm' e,
    main_loop own hl rc events rm = Some (st, rm', e) →
    rm' !! Z.to_nat a = rm !! Z.to_nat a.
Proof.
  intros Ha. induction events as [|ev rest IH]; intros Hnw rm st rm' e H.
  - injection H as <- <- <-. reflexivity.
  - apply Forall_cons in Hnw as [Hev Hrest].
    apply main_loop_cons_inv in H as (s1 & rm1 & e1 & Ht & Hk).
    assert (Hstep : rm1 !! Z.to_nat a = rm !! Z.to_nat a).
    { apply loop_turn_inv in Ht as [(_ & _ & -> & _) | (q & r & Hrecv & Hq & Hh)];
        [reflexivity|].
      exact (handled_register_kept own hl a ev q r rm s1 rm1 e1 Ha Hrecv Hq Hev Hh). }
    destruct s1 as [|r1].
    + destruct Hk as (e2 & Hrun & _).
      rewrite (IH Hrest rm1 st rm' e2 Hrun). exact Hstep.
    + destruct Hk as (_ & -> & _). exact Hstep.
Qed.

(** Register 10, holding 1234, over scenarios B to E and a write to
    register 11. *)
Lemma mbs_register_kept_witness :
  <[11%nat := 7]> (<[10%nat := 1234]> reg_map0) !! Z.to_nat 10 =
  <[10%nat := 1234]> reg_map0 !! Z.to_nat 10.
Proof.
  eapply (mbs_register_kept 5 1 0 10
            [served frame_B; served frame_C; served frame_D; served frame_E;
             served frame_write_11]
            ltac:(discriminate) _ (<[10%nat := 1234]> reg_map0) Continue).
  reflexivity.
  Unshelve.
  repeat constructor;
    intros (q & r & Hrecv & Hq & Hown & Hop & Ha);
    injection Hrecv as <-; injection Hq as <-; vm_compute in Hop, Ha; discriminate.
Defined.

Lemma handled_shape own ev q r rm st rm' e :
  handled own ev q r rm st rm' e →
  length rm' = length rm ∧ (Forall uint16_value rm → Forall uint16_value rm').
Proof.
  intros Hh. destruct Hh; try (split; [reflexivity | tauto]).
  split; [apply length_insert|].
  intros Hrm. apply Forall_insert; [exact Hrm|].
  unfold uint16_value. rewrite reg_val_of_be16. apply be16_range.
Qed.

(** X3. A run of the loop never changes the size of the register map,
    and if every register holds a 16-bit value before the run, every
    register holds a 16-bit value after it. *)
Theorem mbs_map_shape_kept own hl rc events :
  ∀ rm st rm' e,
    main_loop own hl rc events rm = Some (st, rm', e) →
    length rm' = length rm ∧ (Forall uint16_value rm → Forall uint16_value rm').
Proof.
  induction events as [|ev rest IH]; intros rm st rm' e H.
  - injection H as <- <- <-. split; [reflexivity | tauto].
  - apply main_loop_cons_inv in H as (s1 & rm1 & e1 & Ht & Hk).
    assert (Hstep : length rm1 = length rm
                    ∧ (Forall uint16_value rm → Forall uint16_value rm1)).
    { apply loop_turn_inv in Ht as [(_ & _ & -> & _) | (q & r & _ & _ & Hh)];
        [split; [reflexivity | tauto]|].
      exact (handled_shape own ev q r rm s1 rm1 e1 Hh). }
    destruct s1 as [|r1].
    + destruct Hk as (e2 & Hrun & _).
      destruct (IH rm1 st rm' e2 Hrun) as [Hlen Hval].
      split; [rewrite Hlen; apply Hstep | intros Hrm; apply Hval, Hstep, Hrm].
    + destruct Hk as (_ & -> & _). exact Hstep.
Qed.

Lemma mbs_map_shape_kept_witness :
  length (<[10%nat := 1234]> reg_map0) = length reg_map0 ∧
  (Forall uint16_value reg_map0 → Forall uint16_value (<[10%nat := 1234]> reg_map0)).
Proof.
  apply (mbs_map_shape_kept 5 1 0 [served frame_A; served frame_B] reg_map0 Continue
           (<[10%nat := 1234]> reg_map0)
           ([RegWrite 10 1234; ModbusReply frame_A fresh_mapping]
            ++ [RegRead 10; ModbusReply frame_B (read_mapping 10 1234)])).
  reflexivity.
Defined.

Lemma reply_failure_log_in_bounds own ev c :
  Forall access_in_bounds (reply_failure_log own ev c).
Proof.
  unfold reply_failure_log. destruct (reply_rc ev =? -1); repeat constructor.
Qed.

Lemma handled_in_bounds own ev q r rm st rm' e :
  handled own ev q r rm st rm' e → Forall access_in_bounds e.
Proof.
  pose proof (reg_addr_of_range r) as [Ha0 _].
  assert (Hv : uint16_value (reg_val_of r))
    by (unfold uint16_value; rewrite reg_val_of_be16; apply be16_range).
  intros Hh. destruct Hh.
  - constructor.
  - constructor; [exact I | constructor].
  - constructor; [split; assumption|].
    constructor; [exact I | apply reply_failure_log_in_bounds].
  - constructor; [split; [split; assumption | exact Hv]|].
    constructor; [exact I | apply reply_failure_log_in_bounds].
  - constructor; [exact I | apply reply_failure_log_in_bounds].
  - constructor; [exact I|].
    constructor; [exact I | apply reply_failure_log_in_bounds].
Qed.

(** X4. Every access to the register map that a run of the loop makes
    is an access to one of the registers 0 to [MAX_REG] - 1, and every
    value written fits a 16-bit register. *)
Theorem mbs_accesses_in_bounds own hl rc events :
  ∀ rm st rm' e,
    main_loop own hl rc events rm = Some (st, rm', e) →
    Forall access_in_bounds e.
Proof.
  induction events as [|ev rest IH]; intros rm st rm' e H.
  - injection H as <- <- <-. constructor.
  - apply main_loop_cons_inv in H as (s1 & rm1 & e1 & Ht & Hk).
    assert (Hstep : Forall access_in_bounds e1).
    { apply loop_turn_inv in Ht as [(_ & _ & _ & ->) | (q & r & _ & _ & Hh)];
        [repeat constructor|].
      exact (handled_in_bounds own ev q r rm s1 rm1 e1 Hh). }
    destruct s1 as [|r1].
    + destruct Hk as (e2 & Hrun & ->). apply Forall_app. split; [exact Hstep|].
      exact (IH rm1 st rm' e2 Hrun).
    + destruct Hk as (_ & _ & ->). exact Hstep.
Qed.

Lemma mbs_accesses_in_bounds_witness :
  Forall access_in_bounds
    ([RegWrite 10 1234; ModbusReply frame_A fresh_mapping]
     ++ [RegRead 10; ModbusReply frame_B (read_mapping 10 1234)]).
Proof.
  apply (mbs_accesses_in_bounds 5 1 0 [served frame_A; served frame_B] reg_map0 Continue
           (<[10%nat := 1234]> reg_map0)).
  reflexivity.
Defined.

(** ** How the loop ends *)

(** X5. The main loop ends in one way only: a turn in which the response
    structure cannot be allocated for an addressed request.  Then [main]
    returns -1 and the last thing the program did was to log that
    failure.  No request, whatever its function code or address, and no
    failed receive or transmission ends the loop. *)
Theorem mbs_loop_ends_only_out_of_memory own hl rc events :
  ∀ rm st rm' e,
    main_loop own hl rc events rm = Some (st, rm', e) →
    st = Continue ∨
    (st = Return (-1) ∧
     last e = Some (Syslog (LogMappingFailed own)) ∧
     Exists (λ ev, mapping_alloc ev = false) events).
Proof.
  induction events as [|ev rest IH]; intros rm st rm' e H.
  - injection H as <- <- <-. left. reflexivity.
  - apply main_loop_cons_inv in H as (s1 & rm1 & e1 & Ht & Hk).
    destruct s1 as [|r1].
    + destruct Hk as (e2 & Hrun & ->).
      destruct (IH rm1 st rm' e2 Hrun) as [Hc | (Hr & Hlast & Hex)]; [left; exact Hc|].
      right. split_and!; [exact Hr | | apply Exists_cons_tl; exact Hex].
      destruct e2 as [|x e2]; [discriminate Hlast|].
      rewrite last_app. rewrite Hlast. reflexivity.
    + destruct Hk as (-> & -> & ->). right.
      apply loop_turn_inv in Ht as [(_ & Hst & _) | (q & r & _ & _ & Hh)];
        [discriminate Hst|].
      inversion Hh; subst.
      split_and!; [reflexivity | reflexivity | apply Exists_cons_hd; assumption].
Qed.

Lemma mbs_loop_ends_witness :
  Return (-1) = Continue ∨
  (Return (-1) = Return (-1) ∧
   last [Syslog (LogMappingFailed 5)] = Some (Syslog (LogMappingFailed 5)) ∧
   Exists (λ ev, mapping_alloc ev = false) [out_of_memory frame_A; served frame_B]).
Proof.
  apply (mbs_loop_ends_only_out_of_memory 5 1 0
           [out_of_memory frame_A; served frame_B] reg_map0 (Return (-1)) reg_map0).
  reflexivity.
Defined.

(** ** Who is answered *)

Lemma reply_failure_log_no_query own ev c :
  omap reply_query (reply_failure_log own ev c) = [].
Proof. unfold reply_failure_log. destruct (reply_rc ev =? -1); reflexivity. Qed.

Lemma handled_replies own hl ev q r rm rm' e :
  received ev = Some q →
  request_at hl q = Some r →
  handled own ev q r rm Continue rm' e →
  omap reply_query e = option_list (answered_frame own hl ev).
Proof.
  intros Hrecv Hq Hh. unfold answered_frame, answered. rewrite Hrecv, Hq.
  inversion Hh; subst;
    try match goal with
        | H : addressed _ _ |- _ => unfold addressed in H; rewrite H, Z.eqb_refl
        end;
    try match goal with
        | H : mapping_alloc _ = true |- _ => rewrite H
        end;
    cbn -[reply_failure_log]; rewrite ?reply_failure_log_no_query; try reflexivity.
  assert ((uint8 (slave_addr r) =? own) = false) as -> by (apply Z.eqb_neq; assumption).
  reflexivity.
Qed.

(** X6. In a run of the loop that has not ended, the frames that were
    answered (by a normal or an exception reply) are exactly the frames
    addressed to the responder, each answered once, in the order in
    which they arrived.  Frames for other responders and failed
    receives are not answered. *)
Theorem mbs_replies_answer_addressed_frames own hl rc events :
  ∀ rm rm' e,
    main_loop own hl rc events rm = Some (Continue, rm', e) →
    omap reply_query e = omap (answered_frame own hl) events.
Proof.
  induction events as [|ev rest IH]; intros rm rm' e H.
  - injection H as <- <-. reflexivity.
  - apply main_loop_cons_inv in H as (s1 & rm1 & e1 & Ht & Hk).
    destruct s1 as [|r1]; [| destruct Hk as (Hst & _); discriminate Hst].
    destruct Hk as (e2 & Hrun & ->).
    rewrite omap_app, (IH rm1 rm' e2 Hrun). cbn [omap list_omap].
    apply loop_turn_inv in Ht as [(Hrecv & _ & _ & ->) | (q & r & Hrecv & Hq & Hh)].
    + unfold answered_frame, answered. rewrite Hrecv. reflexivity.
    + rewrite (handled_replies own hl ev q r rm rm1 e1 Hrecv Hq Hh).
      destruct (answered_frame own hl ev); reflexivity.
Qed.

(** Of the five scenarios, A, B, C and E are answered, in this order. *)
Lemma mbs_replies_witness :
  omap reply_query
    [RegWrite 10 1234; ModbusReply frame_A fresh_mapping;
     RegRead 10; ModbusReply frame_B (read_mapping 10 1234);
     ModbusReplyException frame_C 2;
     Syslog (LogInvalidOperation 7); ModbusReplyException frame_E 1] =
  omap (answered_frame 5 1)
    [served frame_A; served frame_B; served frame_C; served frame_D; served frame_E].
Proof.
  apply (mbs_replies_answer_addressed_frames 5 1 0
           [served frame_A; served frame_B; served frame_C; served frame_D; served frame_E]
           reg_map0 (<[10%nat := 1234]> reg_map0)).
  reflexivity.
Defined.

(** ** Runs one after the other *)

(** Serving a sequence of turns and then a second sequence is the
    same as serving the two sequences in one run: the second run starts
    from the register map the first one left, the effects follow one
    another, and nothing of the second sequence happens if the first run
    ended the loop. *)
Lemma main_loop_app own hl rc events1 events2 rm :
  main_loop own hl rc (events1 ++ events2) rm =
  and_then (main_loop own hl rc events1 rm) (main_loop own hl rc events2).
Proof.
  revert rm. induction events1 as [|ev rest IH]; intros rm.
  - cbn [app main_loop]. unfold ret, and_then.
    destruct (main_loop own hl rc events2 rm) as [[[st rm2] e2]|]; reflexivity.
  - cbn [app main_loop]. change (cont =? 0) with false. cbv iota.
    unfold bind. destruct (loop_turn own hl ev rm) as [[[s1 rm1] e1]|]; [|reflexivity].
    destruct s1 as [|r1]; [| reflexivity].
    rewrite IH. unfold and_then.
    destruct (main_loop own hl rc rest rm1) as [[[s2 rm2] e2]|]; [|reflexivity].
    destruct s2 as [|r2]; [| reflexivity].
    destruct (main_loop own hl rc events2 rm2) as [[[s3 rm3] e3]|]; [|reflexivity].
    rewrite app_assoc. reflexivity.
Qed.

(** ** A reply that cannot be sent *)

Lemma reply_failure_log_cases own ev c :
  reply_failure_log own (transmitted ev) c = [] ∧
  (reply_failure_log own ev c = [] ∨
   reply_rc ev = -1 ∧ ∃ m, reply_failure_log own ev c = [Syslog m]).
Proof.
  unfold reply_failure_log, transmitted. cbn [reply_rc]. split; [reflexivity|].
  destruct (reply_rc ev =? -1) eqn:Hrc; [right | left; reflexivity].
  apply Z.eqb_eq in Hrc. split; [exact Hrc|]. eexists. reflexivity.
Qed.

(** X8. When the reply to a request cannot be transmitted, the turn is
    the turn it would have been with the reply transmitted, followed by
    one log line, "Failed to send reply" after a normal reply and
    "Failed to send exception reply" after an exception reply: the loop
    goes on, and the register map is changed as the request asked (a
    write is kept although its reply was lost).  A turn without a reply
    logs no lost reply. *)
Theorem mbs_lost_reply_changes_nothing_else own hl ev rm st rm' e :
  loop_turn own hl ev rm = Some (st, rm', e) →
  ∃ e0,
    loop_turn own hl (transmitted ev) rm = Some (st, rm', e0) ∧
    e = e0 ++ lost_reply_log own ev e0.
Proof.
  unfold loop_turn. cbn [transmitted received].
  destruct (received ev) as [q|].
  2: { intros H. injection H as <- <- <-. eexists. split; [reflexivity|].
       unfold lost_reply_log. destruct (reply_rc ev =? -1); reflexivity. }
  intros H. apply handle_request_inv in H as (r & Hq & Hh).
  inversion Hh; subst.
  - eexists. split;
      [eapply (handle_request_unaddressed own hl (transmitted ev) q r);
       solve [eassumption] |].
    unfold lost_reply_log. destruct (reply_rc ev =? -1); reflexivity.
  - eexists. split;
      [eapply (handle_request_no_mapping own hl (transmitted ev) q r);
       solve [eassumption] |].
    unfold lost_reply_log. destruct (reply_rc ev =? -1); reflexivity.
  - eexists. split;
      [eapply (handle_request_read_at own hl (transmitted ev) q r);
       solve [eassumption] |].
    unfold lost_reply_log, reply_failure_log. cbn [transmitted reply_rc].
    destruct (reply_rc ev =? -1); reflexivity.
  - eexists. split;
      [eapply (handle_request_write_at own hl (transmitted ev) q r);
       solve [eassumption] |].
    unfold lost_reply_log, reply_failure_log. cbn [transmitted reply_rc].
    destruct (reply_rc ev =? -1); reflexivity.
  - eexists. split;
      [eapply (handle_request_out_of_range own hl (transmitted ev) q r);
       solve [eassumption] |].
    unfold lost_reply_log, reply_failure_log. cbn [transmitted reply_rc].
    destruct (reply_rc ev =? -1); reflexivity.
  - eexists. split;
      [eapply (handle_request_unsupported own hl (transmitted ev) q r);
       solve [eassumption] |].
    unfold lost_reply_log, reply_failure_log. cbn [transmitted reply_rc].
    destruct (reply_rc ev =? -1); reflexivity.
Qed.

(** Request A when its reply cannot be sent: register 10 is written all
    the same, and the lost reply is logged. *)
Lemma mbs_lost_reply_witness :
  ∃ e0,
    loop_turn 5 1
      (transmitted {| received := Some frame_A; mapping_alloc := true; reply_rc := -1 |})
      reg_map0 = Some (Continue, <[10%nat := 1234]> reg_map0, e0) ∧
    [RegWrite 10 1234; ModbusReply frame_A fresh_mapping; Syslog (LogReplyFailed 5)] =
    e0 ++ lost_reply_log 5
            {| received := Some frame_A; mapping_alloc := true; reply_rc := -1 |} e0.
Proof.
  apply (mbs_lost_reply_changes_nothing_else 5 1
           {| received := Some frame_A; mapping_alloc := true; reply_rc := -1 |}
           reg_map0 Continue (<[10%nat := 1234]> reg_map0)).
  reflexivity.
Defined.

(** ** Bytes and 16-bit fields *)

Lemma uint8_byte_of_int x : uint8 (Tool.byte_of_int x) = x mod 256.
Proof.
  unfold uint8, Tool.byte_of_int.
  pose proof (Z.mod_pos_bound x 256 ltac:(lia)) as Hx.
  destruct (Byte.of_N (Z.to_N (x mod 256))) as [b|] eqn:Hb.
  - apply Byte.to_of_N in Hb. change (default x00 (Some b)) with b. rewrite Hb. lia.
  - apply Byte.of_N_None_iff in Hb. lia.
Qed.

Lemma uint8_inj b1 b2 : uint8 b1 = uint8 b2 → b1 = b2.
Proof.
  unfold uint8. intros H. apply N2Z.inj in H.
  pose proof (Byte.of_to_N b1) as H1. rewrite H in H1.
  rewrite Byte.of_to_N in H1. injection H1 as ->. reflexivity.
Qed.

Lemma be16_sum hi lo : be16 hi lo = 256 * uint8 hi + uint8 lo.
Proof.
  unfold be16.
  pose proof (uint8_range hi) as Hh. pose proof (uint8_range lo) as Hl.
  rewrite Z.shiftl_mul_pow2 by lia.
  rewrite <- Z.lxor_lor, <- Z.add_nocarry_lxor; [change (2 ^ 8) with 256; lia | |].
  all: apply Z.bits_inj'; intros n Hn; rewrite Z.land_spec, Z.bits_0;
    destruct (Z_lt_le_dec n 8);
    [rewrite Z.mul_pow2_bits_low by lia; reflexivity
    | rewrite (Z.bits_above_log2 (uint8 lo) n), andb_false_r; [reflexivity | lia |];
      destruct (Z.eq_dec (uint8 lo) 0) as [-> | ?]; [simpl; lia |];
      apply Z.lt_le_trans with 8; [apply Z.log2_lt_pow2; lia | lia]].
Qed.

Lemma be16_inj hi lo hi' lo' : be16 hi lo = be16 hi' lo' → hi = hi' ∧ lo = lo'.
Proof.
  rewrite !be16_sum. intros H.
  pose proof (uint8_range hi). pose proof (uint8_range lo).
  pose proof (uint8_range hi'). pose proof (uint8_range lo').
  split; apply uint8_inj; lia.
Qed.

(** X9. The register address and the register value of a request are
    256 times the high byte plus the low byte, a number from 0 to
    65535 (the conversion of the value to 16 bits loses nothing), and
    two requests with the same register address carry the same two
    address bytes. *)
Theorem mbs_decoded_fields r :
  reg_addr_of r = 256 * uint8 (reg_addr_hi r) + uint8 (reg_addr_lo r) ∧
  reg_val_of r = 256 * uint8 (reg_val_hi r) + uint8 (reg_val_lo r) ∧
  0 <= reg_addr_of r < 65536 ∧ 0 <= reg_val_of r < 65536 ∧
  ∀ r', reg_addr_of r' = reg_addr_of r →
        reg_addr_hi r' = reg_addr_hi r ∧ reg_addr_lo r' = reg_addr_lo r.
Proof.
  split_and!.
  - apply be16_sum.
  - rewrite reg_val_of_be16. apply be16_sum.
  - apply be16_range.
  - apply be16_range.
  - rewrite reg_val_of_be16. apply be16_range.
  - rewrite reg_val_of_be16. apply be16_range.
  - intros r' H. apply be16_inj. exact H.
Qed.

(** ** relconf *)

Lemma shiftr_bytes x : (Z.shiftr x 8 mod 256) * 256 + x mod 256 = x mod 65536.
Proof.
  rewrite Z.shiftr_div_pow2 by lia. change (2 ^ 8) with 256.
  pose proof (Z.div_mod x 256 ltac:(lia)).
  pose proof (Z.div_mod (x / 256) 256 ltac:(lia)).
  pose proof (Z.mod_pos_bound x 256 ltac:(lia)).
  pose proof (Z.mod_pos_bound (x / 256) 256 ltac:(lia)).
  apply Z.mod_unique_pos with (q := (x / 256) / 256); lia.
Qed.

Lemma relconf_fc_cases a : Relconf.fc a = 3 ∨ Relconf.fc a = 6.
Proof. unfold Relconf.fc. destruct (2 <? Relconf.argc a); [right | left]; reflexivity. Qed.

(** X10. The request frame [relconf] builds has six bytes and, read by
    the responder's decoder, is a request to slave 255, with function
    code 0x06 when a value argument is given and 0x03 when none is, the
    register address modulo 256 (the high address byte is always 0, so
    registers from 256 on cannot be addressed) and, as register value,
    the value argument modulo 65536, or 1 when no value is given. *)
Theorem relconf_request_decoded a :
  ∃ r,
    request_at 1 (Relconf.raw_req a) = Some r ∧
    length (Relconf.raw_req a) = 6%nat ∧
    uint8 (slave_addr r) = 255 ∧
    operation_of r = (if 2 <? Relconf.argc a then 0x06 else 0x03) ∧
    reg_addr_hi r = x00 ∧
    reg_addr_of r = Relconf.arg_reg_addr a mod 256 ∧
    reg_val_of r =
      (if 2 <? Relconf.argc a then Relconf.arg_reg_val a mod 65536 else 1).
Proof.
  eexists. split_and!.
  - reflexivity.
  - reflexivity.
  - cbn [slave_addr]. rewrite uint8_byte_of_int. reflexivity.
  - unfold operation_of. cbn [fc]. rewrite uint8_byte_of_int.
    unfold Relconf.fc. destruct (2 <? Relconf.argc a); reflexivity.
  - reflexivity.
  - unfold reg_addr_of. cbn [reg_addr_hi reg_addr_lo].
    rewrite be16_sum, !uint8_byte_of_int. change (0 mod 256) with 0. lia.
  - rewrite reg_val_of_be16. cbn [reg_val_hi reg_val_lo].
    rewrite be16_sum, !uint8_byte_of_int.
    unfold Relconf.reg_val. destruct (2 <? Relconf.argc a); [| reflexivity].
    rewrite <- shiftr_bytes. lia.
Qed.

Lemma relconf_rsp_value_echo a c :
  2 < Relconf.argc a →
  take 6 (Tool.rsp c) = Relconf.raw_req a →
  Relconf.rsp_value (Tool.rsp c) Relconf.DATA_OFFSET_WR =
  Some (Relconf.arg_reg_val a mod 65536).
Proof.
  intros Hargc Hecho. unfold Relconf.rsp_value.
  change (Z.to_nat Relconf.DATA_OFFSET_WR) with 4%nat.
  change (Z.to_nat (Relconf.DATA_OFFSET_WR + 1)) with 5%nat.
  rewrite <- (lookup_take_lt (Tool.rsp c) 6 4) by lia.
  rewrite <- (lookup_take_lt (Tool.rsp c) 6 5) by lia.
  rewrite Hecho. cbn [Relconf.raw_req lookup list_lookup mbind option_bind].
  rewrite be16_sum, !uint8_byte_of_int.
  unfold Relconf.reg_val. assert ((2 <? Relconf.argc a) = true) as ->
    by (apply Z.ltb_lt; exact Hargc).
  rewrite <- shiftr_bytes. f_equal. lia.
Qed.

(** X11. A write with [relconf] whose request comes back as the response
    (the device echoes it): the tool sends the six-byte request, prints
    the register address as given and the value modulo 65536, which is
    the value given when that fits 16 bits, and returns 0. *)
Theorem relconf_write_round_trip a p c :
  2 < Relconf.argc a →
  Tool.init_port Relconf.SERIAL_PORT Relconf.RTS_DELAY p = None →
  Tool.rsp_length c ≠ -1 →
  take 6 (Tool.rsp c) = Relconf.raw_req a →
  Relconf.main a p c =
    Some (0, [Relconf.RawRequest (Relconf.raw_req a) 6;
              Relconf.RegLine (Relconf.arg_reg_addr a) (Relconf.arg_reg_val a mod 65536)]) ∧
  (0 <= Relconf.arg_reg_val a < 65536 →
   Relconf.arg_reg_val a mod 65536 = Relconf.arg_reg_val a).
Proof.
  intros Hargc Hport Hlen Hecho. split; [| intros Hv; apply Z.mod_small; exact Hv].
  unfold Relconf.main. assert ((Relconf.argc a <? 2) = false) as -> by (apply Z.ltb_ge; lia).
  rewrite Hport. unfold Relconf.fc.
  assert ((2 <? Relconf.argc a) = true) as -> by (apply Z.ltb_lt; exact Hargc).
  change (Relconf.MODBUS_FC_WRITE_SINGLE_REGISTER
          =? Relconf.MODBUS_FC_READ_HOLDING_REGISTERS) with false. cbv iota.
  rewrite (relconf_rsp_value_echo a c Hargc Hecho). cbn [mbind option_bind].
  assert ((Tool.rsp_length c =? -1) = false) as -> by (apply Z.eqb_neq; exact Hlen).
  reflexivity.
Qed.

(** [relconf 1 1234], echoed. *)
Lemma relconf_write_round_trip_witness :
  Relconf.main
    {| Relconf.argc := 3; Relconf.arg_reg_addr := 1; Relconf.arg_reg_val := 1234 |}
    good_port
    {| Tool.rsp_length := 8; Tool.rsp := [xff; x06; x00; x01; x04; xd2; x00; x00] |} =
    Some (0, [Relconf.RawRequest
                (Relconf.raw_req
                   {| Relconf.argc := 3; Relconf.arg_reg_addr := 1;
                      Relconf.arg_reg_val := 1234 |}) 6;
              Relconf.RegLine 1 (1234 mod 65536)]) ∧
  (0 <= 1234 < 65536 → 1234 mod 65536 = 1234).
Proof.
  apply (relconf_write_round_trip
           {| Relconf.argc := 3; Relconf.arg_reg_addr := 1; Relconf.arg_reg_val := 1234 |}
           good_port
           {| Tool.rsp_length := 8; Tool.rsp := [xff; x06; x00; x01; x04; xd2; x00; x00] |}).
  - reflexivity.
  - reflexivity.
  - discriminate.
  - reflexivity.
Defined.

(** The set-up of the port of [relconf] succeeds exactly when none of
    its four calls fails. *)
Lemma relconf_init_port_None p :
  Tool.init_port Relconf.SERIAL_PORT Relconf.RTS_DELAY p = None ↔ ¬ port_call_fails p.
Proof.
  unfold Tool.init_port, port_call_fails.
  change (index 0 "USB" Relconf.SERIAL_PORT) with (@None nat).
  change (0 <? Relconf.RTS_DELAY) with true. cbn [andb].
  destruct (Tool.new_rtu_ok p); cbn [negb];
    [| split; [discriminate | intros H; exfalso; apply H; left; reflexivity]].
  destruct (Tool.connect_rc p =? -1) eqn:Hc;
    [apply Z.eqb_eq in Hc;
     split; [discriminate | intros H; exfalso; apply H; right; left; exact Hc] |].
  destruct (Tool.set_rts_rc p =? -1) eqn:Hr;
    [apply Z.eqb_eq in Hr;
     split; [discriminate | intros H; exfalso; apply H; right; right; left; exact Hr] |].
  destruct (Tool.set_rts_delay_rc p =? -1) eqn:Hd;
    [apply Z.eqb_eq in Hd;
     split; [discriminate | intros H; exfalso; apply H; right; right; right; exact Hd] |].
  apply Z.eqb_neq in Hc, Hr, Hd.
  split; [| reflexivity]. intros _ [H | [H | [H | H]]]; congruence.
Qed.

(** X12. The return value of [relconf] tells only whether the port could
    be set up: with enough arguments it is -1 exactly when
    [modbus_new_rtu] gives no context or one of [modbus_connect],
    [modbus_rtu_set_rts] and [modbus_rtu_set_rts_delay] returns -1, and
    then one message about the port is all the tool prints and nothing
    is sent.  Otherwise it is 0: a request that failed is reported on
    the output (the error message instead of a register line) but the
    return value is 0 all the same. *)
Theorem relconf_exit_status a p c rc out :
  Relconf.main a p c = Some (rc, out) →
  (rc = -1 ↔ 2 <= Relconf.argc a ∧ port_call_fails p) ∧
  (rc = 0 ∨ rc = -1) ∧
  (rc = -1 → ∃ e, out = [Relconf.PortError e]) ∧
  (2 <= Relconf.argc a →
   ¬ port_call_fails p →
   Tool.rsp_length c = -1 →
   rc = 0 ∧ out = [Relconf.RawRequest (Relconf.raw_req a) 6; Relconf.RequestError]).
Proof.
  unfold Relconf.main. intros H.
  pose proof (relconf_init_port_None p) as Hport.
  destruct (Relconf.argc a <? 2) eqn:Hargc.
  { injection H as <- <-. apply Z.ltb_lt in Hargc. split_and!.
    - split; [discriminate | lia].
    - left; reflexivity.
    - discriminate.
    - lia. }
  apply Z.ltb_ge in Hargc.
  destruct (Tool.init_port Relconf.SERIAL_PORT Relconf.RTS_DELAY p) as [e|].
  { injection H as <- <-.
    assert (Hfails : port_call_fails p).
    { unfold port_call_fails in *.
      destruct (Tool.new_rtu_ok p); [| left; reflexivity].
      destruct (Z.eq_dec (Tool.connect_rc p) (-1)) as [? | Hc]; [right; left; assumption|].
      destruct (Z.eq_dec (Tool.set_rts_rc p) (-1)) as [? | Hr];
        [right; right; left; assumption|].
      destruct (Z.eq_dec (Tool.set_rts_delay_rc p) (-1)) as [? | Hd];
        [right; right; right; assumption|].
      exfalso. assert (Hnone : Some e = None); [| discriminate Hnone].
      apply Hport. intros [Hx | [Hx | [Hx | Hx]]]; congruence. }
    split_and!.
    - split; [intros _; split; assumption | reflexivity].
    - right; reflexivity.
    - intros _. exists e. reflexivity.
    - intros _ Hok. contradiction. }
  destruct (Relconf.rsp_value _ _) as [v|]; [|discriminate H].
  cbn [mbind option_bind] in H. injection H as <- <-.
  assert (Hok : ¬ port_call_fails p) by (apply Hport; reflexivity).
  split_and!.
  - split; [discriminate | intros [_ Hf]; contradiction].
  - left; reflexivity.
  - discriminate.
  - intros _ _ Hlen. rewrite Hlen. split; reflexivity.
Qed.

(** [relconf 1] when the connection to the port fails. *)
Lemma relconf_exit_status_witness :
  (-1 = -1 ↔
   2 <= 2 ∧
   port_call_fails
     {| Tool.new_rtu_ok := true; Tool.connect_rc := -1;
        Tool.set_rts_rc := 0; Tool.set_rts_delay_rc := 0 |}) ∧
  (-1 = 0 ∨ -1 = -1) ∧
  (-1 = -1 → ∃ e, [Relconf.PortError Tool.ConnectionFailed] = [Relconf.PortError e]) ∧
  (2 <= 2 →
   ¬ port_call_fails
       {| Tool.new_rtu_ok := true; Tool.connect_rc := -1;
          Tool.set_rts_rc := 0; Tool.set_rts_delay_rc := 0 |} →
   -1 = -1 →
   -1 = 0 ∧
   [Relconf.PortError Tool.ConnectionFailed] =
   [Relconf.RawRequest
      (Relconf.raw_req
         {| Relconf.argc := 2; Relconf.arg_reg_addr := 1; Relconf.arg_reg_val := 0 |}) 6;
    Relconf.RequestError]).
Proof.
  apply (relconf_exit_status
           {| Relconf.argc := 2; Relconf.arg_reg_addr := 1; Relconf.arg_reg_val := 0 |}
           {| Tool.new_rtu_ok := true; Tool.connect_rc := -1;
              Tool.set_rts_rc := 0; Tool.set_rts_delay_rc := 0 |}
           {| Tool.rsp_length := -1; Tool.rsp := [x00; x00; x00; x00; x00; x00] |}).
  reflexivity.
Defined.

(** ** thconf *)

(** X13. [check_baudrate] gives a code other than 0 exactly for the baud
    rates 1200, 2400, 4800, 9600 and 19200; the code then lies between
    3 and 7, and the baud rate is 1200 doubled (code - 3) times, so
    different baud rates have different codes. *)
Theorem thconf_check_baudrate b :
  (Thconf.check_baudrate b ≠ 0 ↔ b ∈ thconf_baudrates) ∧
  (Thconf.check_baudrate b ≠ 0 →
   3 <= Thconf.check_baudrate b <= 7 ∧
   b = 1200 * 2 ^ (Thconf.check_baudrate b - 3)).
Proof.
  assert (Hfwd : Thconf.check_baudrate b ≠ 0 →
                 b ∈ thconf_baudrates ∧
                 3 <= Thconf.check_baudrate b <= 7 ∧
                 b = 1200 * 2 ^ (Thconf.check_baudrate b - 3)).
  { unfold Thconf.check_baudrate, thconf_baudrates.
    destruct b as [|p|p]; try (intros H; exfalso; apply H; reflexivity).
    do 15 (try (destruct p as [p|p|];
                try (intros H; exfalso; apply H; reflexivity))).
    all: intros _; split; [repeat constructor | split; [lia | reflexivity]]. }
  split.
  - split; [intros H; apply Hfwd, H |].
    unfold thconf_baudrates. rewrite !elem_of_cons, elem_of_nil.
    intros [-> | [-> | [-> | [-> | [-> | []]]]]]; discriminate.
  - intros H. apply Hfwd, H.
Qed.

Lemma thconf_check_baudrate_witness :
  3 <= Thconf.check_baudrate 9600 <= 7 ∧
  9600 = 1200 * 2 ^ (Thconf.check_baudrate 9600 - 3).
Proof.
  apply (thconf_check_baudrate 9600). discriminate.
Defined.

Lemma thconf_main_valid a p c :
  5 <= Thconf.argc a →
  thconf_valid a →
  Thconf.main a p c =
  match Tool.init_port Thconf.SERIAL_PORT Thconf.RTS_DELAY p with
  | Some e => Some (-1, [Thconf.PortError e])
  | None =>
      same ← Thconf.memcmp_eq
               (Thconf.raw_req a (Thconf.check_baudrate (Thconf.new_baudrate a)))
               (Tool.rsp c) (Z.to_nat Thconf.RSP_FRAME_LEN);
      Some (0, Thconf.RawRequest
                 (Thconf.raw_req a (Thconf.check_baudrate (Thconf.new_baudrate a)))
                 Thconf.REQ_FRAME_LEN ::
               if same : bool then
                 Thconf.Changed ::
                   (if negb (Thconf.baudrate a =? Thconf.new_baudrate a)
                    then [Thconf.NewBaudrate (Thconf.new_baudrate a)] else [])
                   ++ (if negb (Thconf.slave_addr a =? Thconf.new_slave_addr a)
                       then [Thconf.NewSlaveAddress (Thconf.new_slave_addr a)] else [])
               else [Thconf.NotChanged])
  end.
Proof.
  intros Hargc (Hb & Hnb & Hs & Hns). unfold Thconf.main.
  assert ((Thconf.argc a <? 5) = false) as -> by (apply Z.ltb_ge; exact Hargc).
  apply Z.eqb_neq in Hb, Hnb. rewrite Hb. cbv zeta. rewrite Hnb.
  assert (((Thconf.slave_addr a <? 1) || (247 <? Thconf.slave_addr a)) = false) as ->
    by (apply orb_false_iff; split; [apply Z.ltb_ge | apply Z.ltb_ge]; lia).
  assert (((Thconf.new_slave_addr a <? 1) || (247 <? Thconf.new_slave_addr a)) = false)
    as -> by (apply orb_false_iff; split; [apply Z.ltb_ge | apply Z.ltb_ge]; lia).
  reflexivity.
Qed.

Lemma thconf_main_invalid a p c :
  5 <= Thconf.argc a →
  ¬ thconf_valid a →
  ∃ msg,
    Thconf.main a p c = Some (-1, [msg]) ∧
    (∀ req len, msg ≠ Thconf.RawRequest req len) ∧
    (∀ e, msg ≠ Thconf.PortError e).
Proof.
  intros Hargc Hinv. unfold Thconf.main.
  assert ((Thconf.argc a <? 5) = false) as -> by (apply Z.ltb_ge; exact Hargc).
  destruct (Thconf.check_baudrate (Thconf.baudrate a) =? 0) eqn:Hb;
    [eexists; split_and!; [reflexivity | discriminate | discriminate] |].
  cbv zeta.
  destruct (Thconf.check_baudrate (Thconf.new_baudrate a) =? 0) eqn:Hnb;
    [eexists; split_and!; [reflexivity | discriminate | discriminate] |].
  destruct ((Thconf.slave_addr a <? 1) || (247 <? Thconf.slave_addr a)) eqn:Hs;
    [eexists; split_and!; [reflexivity | discriminate | discriminate] |].
  destruct ((Thconf.new_slave_addr a <? 1) || (247 <? Thconf.new_slave_addr a)) eqn:Hns;
    [eexists; split_and!; [reflexivity | discriminate | discriminate] |].
  exfalso. apply Hinv. apply Z.eqb_neq in Hb, Hnb.
  apply orb_false_iff in Hs as [Hs1 Hs2]. apply orb_false_iff in Hns as [Hn1 Hn2].
  apply Z.ltb_ge in Hs1, Hs2, Hn1, Hn2.
  unfold thconf_valid. split_and!; assumption.
Qed.

(** X14. [thconf] sends a request only when both baud rates are known and
    both slave addresses lie in 1..247.  The request then has nine bytes:
    the slave address, 0x06, register 0, value 1, the count 2 of the
    extension, the new slave address and the code of the new baud rate,
    each exactly as given (nothing is cut to eight bits). *)
Theorem thconf_sends_only_valid a p c rc out req len :
  Thconf.main a p c = Some (rc, out) →
  Thconf.RawRequest req len ∈ out →
  thconf_valid a ∧
  len = 9 ∧
  uint8 <$> req =
    [Thconf.slave_addr a; 0x06; 0x00; 0x00; 0x00; 0x01; 0x02;
     Thconf.new_slave_addr a; Thconf.check_baudrate (Thconf.new_baudrate a)].
Proof.
  intros Hmain Hin.
  destruct (Z_lt_le_dec (Thconf.argc a) 5) as [Hargc | Hargc].
  { unfold Thconf.main in Hmain.
    assert ((Thconf.argc a <? 5) = true) as Hlt by (apply Z.ltb_lt; exact Hargc).
    rewrite Hlt in Hmain. injection Hmain as <- <-.
    apply list_elem_of_singleton in Hin. discriminate Hin. }
  assert (Hvalid : thconf_valid a).
  { assert (Hdec : thconf_valid a ∨ ¬ thconf_valid a) by (unfold thconf_valid; lia).
    destruct Hdec as [Hv | Hinv]; [exact Hv|].
    destruct (thconf_main_invalid a p c Hargc Hinv) as (msg & Heq & Hnr & _).
    rewrite Heq in Hmain. injection Hmain as <- <-.
    apply list_elem_of_singleton in Hin. exfalso. exact (Hnr req len (eq_sym Hin)). }
  split; [exact Hvalid|].
  rewrite (thconf_main_valid a p c Hargc Hvalid) in Hmain.
  destruct (Tool.init_port _ _ p) as [e|].
  { injection Hmain as <- <-. apply list_elem_of_singleton in Hin. discriminate Hin. }
  destruct (Thconf.memcmp_eq _ _ _) as [same|]; [|discriminate Hmain].
  cbn [mbind option_bind] in Hmain. injection Hmain as <- <-.
  assert (Hreq : req = Thconf.raw_req a (Thconf.check_baudrate (Thconf.new_baudrate a))
                 ∧ len = Thconf.REQ_FRAME_LEN).
  { apply elem_of_cons in Hin as [Hin | Hin]; [injection Hin as -> ->; split; reflexivity|].
    exfalso. destruct same.
    - apply elem_of_cons in Hin as [Hin | Hin]; [discriminate Hin|].
      apply elem_of_app in Hin as [Hin | Hin].
      + destruct (negb _); [apply list_elem_of_singleton in Hin; discriminate Hin
                           | apply elem_of_nil in Hin; exact Hin].
      + destruct (negb _); [apply list_elem_of_singleton in Hin; discriminate Hin
                           | apply elem_of_nil in Hin; exact Hin].
    - apply list_elem_of_singleton in Hin. discriminate Hin. }
  destruct Hreq as [-> ->]. split; [reflexivity|].
  destruct Hvalid as (_ & Hnb & Hs & Hns).
  destruct (thconf_check_baudrate (Thconf.new_baudrate a)) as [_ Hcode].
  destruct (Hcode Hnb) as [Hrange _].
  unfold Thconf.raw_req. cbn [fmap list_fmap].
  rewrite !uint8_byte_of_int.
  rewrite !Z.mod_small by (unfold Thconf.MODBUS_FC_WRITE_SINGLE_REGISTER; lia).
  reflexivity.
Qed.

(** [thconf 9600 1 19200 2], answered by the echo of the first six
    bytes. *)
Lemma thconf_sends_only_valid_witness :
  thconf_valid
    {| Thconf.argc := 5; Thconf.baudrate := 9600; Thconf.slave_addr := 1;
       Thconf.new_baudrate := 19200; Thconf.new_slave_addr := 2 |} ∧
  9 = 9 ∧
  uint8 <$> [x01; x06; x00; x00; x00; x01; x02; x02; x07] =
    [1; 0x06; 0x00; 0x00; 0x00; 0x01; 0x02; 2; Thconf.check_baudrate 19200].
Proof.
  apply (thconf_sends_only_valid
           {| Thconf.argc := 5; Thconf.baudrate := 9600; Thconf.slave_addr := 1;
              Thconf.new_baudrate := 19200; Thconf.new_slave_addr := 2 |}
           good_port
           {| Tool.rsp_length := 8; Tool.rsp := [x01; x06; x00; x00; x00; x01; x00; x00] |}
           0
           [Thconf.RawRequest [x01; x06; x00; x00; x00; x01; x02; x02; x07] 9;
            Thconf.Changed; Thconf.NewBaudrate 19200; Thconf.NewSlaveAddress 2]).
  - reflexivity.
  - apply list_elem_of_here.
Defined.

(** X15. With enough arguments of which one is not acceptable, [thconf]
    prints one message and returns -1 whatever the port and the device
    would do: the port is not opened and nothing is sent. *)
Theorem thconf_rejects_invalid a :
  5 <= Thconf.argc a →
  ¬ thconf_valid a →
  ∀ p c, ∃ msg,
    Thconf.main a p c = Some (-1, [msg]) ∧
    (∀ req len, msg ≠ Thconf.RawRequest req len) ∧
    (∀ e, msg ≠ Thconf.PortError e).
Proof.
  intros Hargc Hinv p c. exact (thconf_main_invalid a p c Hargc Hinv).
Qed.

(** [thconf 9600 1 19200 248]: 248 is no slave address. *)
Lemma thconf_rejects_invalid_witness :
  ∃ msg,
    Thconf.main
      {| Thconf.argc := 5; Thconf.baudrate := 9600; Thconf.slave_addr := 1;
         Thconf.new_baudrate := 19200; Thconf.new_slave_addr := 248 |}
      good_port
      {| Tool.rsp_length := 8; Tool.rsp := [x01; x06; x00; x00; x00; x01; x00; x00] |} =
      Some (-1, [msg]) ∧
    (∀ req len, msg ≠ Thconf.RawRequest req len) ∧
    (∀ e, msg ≠ Thconf.PortError e).
Proof.
  apply (thconf_rejects_invalid
           {| Thconf.argc := 5; Thconf.baudrate := 9600; Thconf.slave_addr := 1;
              Thconf.new_baudrate := 19200; Thconf.new_slave_addr := 248 |}).
  - vm_compute. discriminate.
  - unfold thconf_valid. cbn. lia.
Defined.

Lemma bytes_eqb_eq (l1 l2 : list byte) :
  length l1 = length l2 →
  (forallb (λ x, Byte.eqb x.1 x.2) (zip l1 l2) = true ↔ l1 = l2).
Proof.
  revert l2. induction l1 as [|x l1 IH]; intros [|y l2] Hlen; try discriminate Hlen.
  - split; reflexivity.
  - cbn [zip zip_with forallb fst snd]. rewrite andb_true_iff.
    injection Hlen as Hlen. rewrite (IH l2 Hlen). split.
    + intros [Hxy ->]. apply Byte.byte_dec_bl in Hxy. rewrite Hxy. reflexivity.
    + intros Heq. injection Heq as -> ->. split; [apply Byte.byte_dec_lb|]; reflexivity.
Qed.

Lemma uint8_fmap_inj (l1 l2 : list byte) : uint8 <$> l1 = uint8 <$> l2 → l1 = l2.
Proof.
  revert l2. induction l1 as [|x l1 IH]; intros [|y l2] H; try discriminate H.
  - reflexivity.
  - cbn [fmap list_fmap] in H. injection H as Hxy Hl.
    apply uint8_inj in Hxy. rewrite Hxy, (IH l2 Hl). reflexivity.
Qed.

Lemma memcmp_eq_spec a b n same :
  Thconf.memcmp_eq a b n = Some same →
  (same = true ↔ take n a = take n b).
Proof.
  unfold Thconf.memcmp_eq.
  destruct ((n <=? length a)%nat && (n <=? length b)%nat) eqn:Hlen; [|discriminate].
  apply andb_true_iff in Hlen as [Ha Hb]. apply Nat.leb_le in Ha, Hb.
  intros H. injection H as <-.
  apply bytes_eqb_eq. rewrite !length_take. lia.
Qed.

(** X16. With acceptable parameters and the port set up, [thconf] reports
    the change as made exactly when the response starts with the six
    bytes slave address, 0x06, 0, 0, 0, 1, the echo of the standard part
    of the request; the three bytes of the extension are not looked for
    in the response.  It returns 0 whether the change is reported as
    made or not. *)
Theorem thconf_success_criterion a p c rc out :
  5 <= Thconf.argc a →
  thconf_valid a →
  Tool.init_port Thconf.SERIAL_PORT Thconf.RTS_DELAY p = None →
  Thconf.main a p c = Some (rc, out) →
  rc = 0 ∧
  (Thconf.Changed ∈ out ↔
   uint8 <$> take 6 (Tool.rsp c) = [Thconf.slave_addr a; 0x06; 0x00; 0x00; 0x00; 0x01]) ∧
  (Thconf.NotChanged ∈ out ↔ Thconf.Changed ∉ out).
Proof.
  intros Hargc Hvalid Hport Hmain.
  rewrite (thconf_main_valid a p c Hargc Hvalid), Hport in Hmain.
  destruct (Thconf.memcmp_eq _ _ _) as [same|] eqn:Hcmp; [|discriminate Hmain].
  cbn [mbind option_bind] in Hmain. injection Hmain as <- <-.
  apply memcmp_eq_spec in Hcmp.
  change (Z.to_nat Thconf.RSP_FRAME_LEN) with 6%nat in Hcmp.
  assert (Hreq : uint8 <$> take 6 (Thconf.raw_req a
                   (Thconf.check_baudrate (Thconf.new_baudrate a)))
                 = [Thconf.slave_addr a; 0x06; 0x00; 0x00; 0x00; 0x01]).
  { destruct Hvalid as (_ & _ & Hs & _).
    unfold Thconf.raw_req. cbn [take fmap list_fmap]. rewrite !uint8_byte_of_int.
    rewrite !Z.mod_small by (unfold Thconf.MODBUS_FC_WRITE_SINGLE_REGISTER; lia).
    reflexivity. }
  assert (Hsame : same = true ↔
            uint8 <$> take 6 (Tool.rsp c)
            = [Thconf.slave_addr a; 0x06; 0x00; 0x00; 0x00; 0x01]).
  { rewrite Hcmp, <- Hreq. split; [intros ->; reflexivity|].
    intros Heq. symmetry. apply uint8_fmap_inj. exact Heq. }
  split; [reflexivity|]. rewrite <- Hsame. destruct same.
  - split_and!.
    + split; [reflexivity | intros _; apply list_elem_of_further, list_elem_of_here].
    + split; [| intros Hn; exfalso; apply Hn; apply list_elem_of_further, list_elem_of_here].
      intros Hin. exfalso.
      apply elem_of_cons in Hin as [Hin | Hin]; [discriminate Hin|].
      apply elem_of_cons in Hin as [Hin | Hin]; [discriminate Hin|].
      apply elem_of_app in Hin as [Hin | Hin].
      * destruct (negb _); [apply list_elem_of_singleton in Hin; discriminate Hin
                           | apply elem_of_nil in Hin; exact Hin].
      * destruct (negb _); [apply list_elem_of_singleton in Hin; discriminate Hin
                           | apply elem_of_nil in Hin; exact Hin].
  - assert (Hno : Thconf.Changed ∉
              [Thconf.RawRequest
                 (Thconf.raw_req a (Thconf.check_baudrate (Thconf.new_baudrate a)))
                 Thconf.REQ_FRAME_LEN; Thconf.NotChanged]).
    { intros Hin.
      apply elem_of_cons in Hin as [Hin | Hin]; [discriminate Hin|].
      apply list_elem_of_singleton in Hin. discriminate Hin. }
    split_and!.
    + split; [intros Hin; exfalso; exact (Hno Hin) | discriminate].
    + split; [intros _; exact Hno
             | intros _; apply list_elem_of_further, list_elem_of_here].
Qed.

(** [thconf 9600 1 19200 2] when the device does not answer and the
    response buffer holds zeros. *)
Lemma thconf_success_criterion_witness :
  0 = 0 ∧
  (Thconf.Changed ∈
     [Thconf.RawRequest [x01; x06; x00; x00; x00; x01; x02; x02; x07] 9;
      Thconf.NotChanged] ↔
   uint8 <$> take 6 [x00; x00; x00; x00; x00; x00; x00; x00] =
     [1; 0x06; 0x00; 0x00; 0x00; 0x01]) ∧
  (Thconf.NotChanged ∈
     [Thconf.RawRequest [x01; x06; x00; x00; x00; x01; x02; x02; x07] 9;
      Thconf.NotChanged] ↔
   Thconf.Changed ∉
     [Thconf.RawRequest [x01; x06; x00; x00; x00; x01; x02; x02; x07] 9;
      Thconf.NotChanged]).
Proof.
  apply (thconf_success_criterion
           {| Thconf.argc := 5; Thconf.baudrate := 9600; Thconf.slave_addr := 1;
              Thconf.new_baudrate := 19200; Thconf.new_slave_addr := 2 |}
           good_port
           {| Tool.rsp_length := -1; Tool.rsp := [x00; x00; x00; x00; x00; x00; x00; x00] |}).
  - vm_compute. discriminate.
  - unfold thconf_valid. cbn. split_and!; first [discriminate | lia].
  - reflexivity.
  - reflexivity.
Defined.

(** ** mbm *)

Lemma to_uint16_range x : uint16_value (to_uint16 x).
Proof.
  unfold uint16_value, to_uint16. change 0xFFFF with (Z.ones 16).
  rewrite Z.land_ones by lia. change (2 ^ 16) with 65536.
  apply Z.mod_pos_bound. lia.
Qed.

Lemma fill_tab_spec vals :
  ∀ k tab,
    (k <= 32)%nat →
    length tab = 32%nat →
    Mbm.fill_tab vals k tab =
    (take k tab ++ (to_uint16 <$> take (32 - k) vals)
       ++ drop (k + min (length vals) (32 - k)) tab,
     (k + min (length vals) (32 - k))%nat).
Proof.
  induction vals as [|v vs IH]; intros k tab Hk Hlen.
  - cbn [Mbm.fill_tab length]. rewrite Nat.min_0_l, Nat.add_0_r, take_nil.
    cbn [fmap list_fmap app]. rewrite take_drop. reflexivity.
  - cbn [Mbm.fill_tab]. change (Z.to_nat Mbm.MAX_REG) with 32%nat.
    destruct (k <? 32)%nat eqn:Hlt.
    + apply Nat.ltb_lt in Hlt.
      rewrite IH by (rewrite ?length_insert; lia).
      assert (Hk32 : (32 - k = S (32 - S k))%nat) by lia.
      rewrite Hk32. cbn [take length fmap list_fmap].
      assert (Hmin : (k + min (S (length vs)) (S (32 - S k))
                      = S k + min (length vs) (32 - S k))%nat) by lia.
      rewrite Hmin. f_equal.
      rewrite (take_S_r (<[k := to_uint16 v]> tab) k (to_uint16 v))
        by (apply list_lookup_insert_eq; lia).
      rewrite take_insert_ge by lia.
      rewrite drop_insert_lt by lia.
      rewrite <- app_assoc. reflexivity.
    + apply Nat.ltb_ge in Hlt. assert (k = 32%nat) as -> by lia.
      change (32 - 32)%nat with 0%nat. rewrite Nat.min_0_r, Nat.add_0_r, take_0.
      cbn [fmap list_fmap app].
      rewrite take_ge by lia. rewrite drop_ge by lia. rewrite app_nil_r. reflexivity.
Qed.

(** X17. In mode W, [mbm] takes the values to write from the arguments
    after the start address: at most [MAX_REG] of them, the rest is
    dropped without a message; each value is cut to 16 bits; the count
    handed to the library is the number of values taken, and the table
    holds the values in the order given, followed by zeros. *)
Theorem mbm_write_multiple_arguments a :
  Mbm.mode a = "W"%char →
  Mbm.argc a = 5 + Z.of_nat (length (Mbm.rest a)) →
  ∃ v,
    Mbm.parse a = Some (Some v) ∧
    Mbm.num_reg v = Z.of_nat (min (length (Mbm.rest a)) 32) ∧
    Mbm.clamp (Mbm.num_reg v) = Mbm.num_reg v ∧
    Mbm.tab_reg v =
      (to_uint16 <$> take 32 (Mbm.rest a))
        ++ replicate (32 - min (length (Mbm.rest a)) 32) 0 ∧
    length (Mbm.tab_reg v) = 32%nat ∧
    Forall uint16_value (Mbm.tab_reg v).
Proof.
  intros Hmode Hargc. unfold Mbm.parse. rewrite Hmode, Hargc.
  assert (Z.to_nat (5 + Z.of_nat (length (Mbm.rest a)) - 5) = length (Mbm.rest a))
    as -> by lia.
  rewrite firstn_all. change (Z.to_nat Mbm.MAX_REG) with 32%nat.
  rewrite fill_tab_spec by (rewrite ?length_replicate; lia).
  rewrite take_0. change (32 - 0)%nat with 32%nat. cbn [app Nat.add].
  rewrite drop_replicate.
  eexists. split_and!; [reflexivity | reflexivity | | reflexivity | |].
  - cbn [Mbm.num_reg]. unfold Mbm.clamp, Mbm.MAX_REG.
    destruct (32 <? Z.of_nat (min (length (Mbm.rest a)) 32)) eqn:Hc; [|reflexivity].
    apply Z.ltb_lt in Hc. lia.
  - cbn [Mbm.tab_reg]. rewrite length_app, length_fmap, length_take, length_replicate. lia.
  - cbn [Mbm.tab_reg]. apply Forall_app. split.
    + apply Forall_fmap, Forall_forall. intros x _. apply to_uint16_range.
    + apply Forall_replicate. unfold uint16_value. lia.
Qed.

(** [mbm W 9600 1 0 1 70000 3]: 70000 is written as 4464. *)
Lemma mbm_write_multiple_witness :
  ∃ v,
    Mbm.parse {| Mbm.argc := 8; Mbm.mode := "W"; Mbm.baudrate := 9600;
                 Mbm.slave_addr := 1; Mbm.start_addr := 0;
                 Mbm.rest := [1; 70000; 3] |} = Some (Some v) ∧
    Mbm.num_reg v = Z.of_nat (min 3 32) ∧
    Mbm.clamp (Mbm.num_reg v) = Mbm.num_reg v ∧
    Mbm.tab_reg v = (to_uint16 <$> take 32 [1; 70000; 3]) ++ replicate (32 - min 3 32) 0 ∧
    length (Mbm.tab_reg v) = 32%nat ∧
    Forall uint16_value (Mbm.tab_reg v).
Proof.
  apply (mbm_write_multiple_arguments
           {| Mbm.argc := 8; Mbm.mode := "W"; Mbm.baudrate := 9600;
              Mbm.slave_addr := 1; Mbm.start_addr := 0; Mbm.rest := [1; 70000; 3] |}).
  - reflexivity.
  - reflexivity.
Defined.

Lemma register_lines_from start tab :
  ∀ len s,
    (s + len <= length tab)%nat →
    mapM (λ i, v ← tab !! i;
               Some (Mbm.RegisterLine (Z.of_nat i) (start + Z.of_nat i) v))
         (seq s len) =
    Some ((λ i, Mbm.RegisterLine (Z.of_nat i) (start + Z.of_nat i) (tab !!! i))
            <$> seq s len).
Proof.
  induction len as [|len IH]; intros s Hlen; [reflexivity|].
  cbn [seq mapM fmap list_fmap].
  rewrite (list_lookup_lookup_total_lt tab s) by lia.
  cbn [mbind option_bind]. rewrite IH by lia. reflexivity.
Qed.

Lemma register_lines_total start n tab :
  (Z.to_nat n <= length tab)%nat →
  Mbm.register_lines start n tab = Some (mbm_lines start (Z.to_nat n) tab).
Proof. intros H. unfold Mbm.register_lines, mbm_lines. apply register_lines_from. lia. Qed.





(** The run of the witness above, written out. *)
Example mbm_poll_5000 :
  Mbm.main {| Mbm.argc := 7; Mbm.mode := "r"; Mbm.baudrate := 9600;
              Mbm.slave_addr := 1; Mbm.start_addr := 7; Mbm.rest := [2; 5000] |}
    good_port
    {| Mbm.reads := [(2, [10; 11]); (2, [12; 13]); (-1, [12; 13]); (2, [14; 15])];
       Mbm.write_rc := 0 |} =
  Some (Mbm.Exit (-1),
        [Mbm.RegisterLine 0 7 10; Mbm.RegisterLine 1 8 11; Mbm.Sleep 705032704;
         Mbm.RegisterLine 0 7 12; Mbm.RegisterLine 1 8 13; Mbm.Sleep 705032704;
         Mbm.ReadHoldingError]).
Proof. reflexivity. Qed.

(** X19. A single read with [mbm] (mode r, no poll period) of [n]
    registers asks the library for [n] registers, but for [MAX_REG] when
    [n] is larger.  When the library gives that many, the tool prints one
    line per register and [main] returns their number; otherwise it
    prints the error message and [main] returns what the library
    returned. *)
Theorem mbm_single_read a p l n rc tab more :
  Mbm.argc a = 6 →
  Mbm.mode a = "r"%char →
  Mbm.rest a !! 0%nat = Some n →
  Tool.init_port Mbm.SERIAL_PORT Mbm.RTS_DELAY p = None →
  Mbm.reads l = (rc, tab) :: more →
  Mbm.clamp n = Z.min n Mbm.MAX_REG ∧
  (rc ≠ Mbm.clamp n →
   Mbm.main a p l = Some (Mbm.Exit rc, [Mbm.ReadHoldingError])) ∧
  (rc = Mbm.clamp n →
   (Z.to_nat (Mbm.clamp n) <= length tab)%nat →
   Mbm.main a p l =
     Some (Mbm.Exit (Mbm.clamp n),
           mbm_lines (Mbm.start_addr a) (Z.to_nat (Mbm.clamp n)) tab ++ [Mbm.Sleep 0])).
Proof.
  intros Hargc Hmode Hn Hport Hreads.
  assert (Hmain : Mbm.main a p l =
            Mbm.poll Mbm.ReadHoldingError (Mbm.start_addr a) (Mbm.clamp n) 0
              ((rc, tab) :: more)).
  { unfold Mbm.main, Mbm.parse. rewrite Hargc, Hmode, Hn.
    cbn [Z.ltb Z.compare Pos.compare Pos.compare_cont mbind option_bind].
    cbn [Mbm.num_reg]. rewrite Hport. unfold Mbm.operate. rewrite Hmode, Hreads.
    reflexivity. }
  split_and!.
  - unfold Mbm.clamp, Mbm.MAX_REG. destruct (32 <? n) eqn:Hc;
      [apply Z.ltb_lt in Hc | apply Z.ltb_ge in Hc]; lia.
  - intros Hrc. rewrite Hmain. cbn [Mbm.poll]. apply Z.eqb_neq in Hrc. rewrite Hrc.
    reflexivity.
  - intros -> Hlen. rewrite Hmain. cbn [Mbm.poll]. rewrite Z.eqb_refl. cbn [negb].
    rewrite (register_lines_total _ _ tab Hlen). reflexivity.
Qed.

(** [mbm r 9600 1 0 40] against a device that gives 32 registers. *)
Lemma mbm_single_read_witness :
  Mbm.clamp 40 = Z.min 40 Mbm.MAX_REG ∧
  (32 ≠ Mbm.clamp 40 →
   Mbm.main {| Mbm.argc := 6; Mbm.mode := "r"; Mbm.baudrate := 9600;
               Mbm.slave_addr := 1; Mbm.start_addr := 0; Mbm.rest := [40] |}
     good_port {| Mbm.reads := [(32, replicate 32 5)]; Mbm.write_rc := 0 |} =
     Some (Mbm.Exit 32, [Mbm.ReadHoldingError])) ∧
  (32 = Mbm.clamp 40 →
   (Z.to_nat (Mbm.clamp 40) <= length (replicate 32 5))%nat →
   Mbm.main {| Mbm.argc := 6; Mbm.mode := "r"; Mbm.baudrate := 9600;
               Mbm.slave_addr := 1; Mbm.start_addr := 0; Mbm.rest := [40] |}
     good_port {| Mbm.reads := [(32, replicate 32 5)]; Mbm.write_rc := 0 |} =
     Some (Mbm.Exit (Mbm.clamp 40),
           mbm_lines 0 (Z.to_nat (Mbm.clamp 40)) (replicate 32 5) ++ [Mbm.Sleep 0])).
Proof.
  apply (mbm_single_read
           {| Mbm.argc := 6; Mbm.mode := "r"; Mbm.baudrate := 9600;
              Mbm.slave_addr := 1; Mbm.start_addr := 0; Mbm.rest := [40] |}
           good_port {| Mbm.reads := [(32, replicate 32 5)]; Mbm.write_rc := 0 |}
           40 32 (replicate 32 5) []).
  - reflexivity.
  - reflexivity.
  - reflexivity.
  - reflexivity.
  - reflexivity.
Defined.
